(** * Crowlet: the crawl statistics, the crawl orchestration and the worker pool

    A shallow embedding of [pkg/crawler] (the statistics and orchestration
    file and [http.go]) together with the properties of its specification.

    Conventions.
    - Go's [int], [int64] and [time.Duration] are 64-bit two's complement
      integers: they are carried as [Z], and every arithmetic operation of the
      source is followed by [wrap].
    - A Go [map] is a [gmap]; reading an absent key yields the zero value
      ([mget]).  A [range] loop over a map visits the entries in an
      unspecified order: it is a [map_fold].
    - A run-time panic (here: integer division by zero) is [None]. *)

From Stdlib Require Import ZArith Lia List.
From stdpp Require Import base option list gmap strings numbers.

Local Open Scope Z_scope.

(* ===================================================================== *)
(** ** Machine integers *)

Module GoInt.

Definition modulus : Z := 2 ^ 64.
Definition min_int : Z := - 2 ^ 63.
Definition max_int : Z := 2 ^ 63 - 1.

(** Two's complement reduction to the signed 64-bit range. *)
Definition wrap (x : Z) : Z := (x + 2 ^ 63) mod 2 ^ 64 - 2 ^ 63.

Definition in_range (x : Z) : Prop := min_int <= x <= max_int.

Definition add (x y : Z) : Z := wrap (x + y).
Definition mul (x y : Z) : Z := wrap (x * y).

(** Go's [/] on signed integers truncates toward zero and panics on a zero
    divisor. *)
Definition div (x y : Z) : option Z :=
  if decide (y = 0) then None else Some (wrap (Z.quot x y)).

End GoInt.

Import GoInt.

(* ===================================================================== *)
(** ** Data model *)

(** [CrawlResult] *)
Record CrawlResult := mkCrawlResult {
  cr_URL : string;
  cr_StatusCode : Z;
  cr_Time : Z;
  cr_LinkingURLs : list string
}.

(** [CrawlStats] *)
Record CrawlStats := mkCrawlStats {
  Total : Z;
  StatusCodes : gmap Z Z;
  Average200Time : Z;
  Max200Time : Z;
  Non200Urls : list CrawlResult
}.

(** The zero value of [CrawlStats] (a nil map reads like an empty one). *)
Definition zeroStats : CrawlStats := mkCrawlStats 0 ∅ 0 0 [].

(** [m[k]] on a Go map. *)
Definition mget (m : gmap Z Z) (k : Z) : Z := default 0 (m !! k).

(** One iteration of [stats.StatusCodes[key] = stats.StatusCodes[key] + value]. *)
Definition addEntry (key value : Z) (acc : gmap Z Z) : gmap Z Z :=
  <[key := add (mget acc key) value]> acc.

(** [for key, value := range src { dst[key] = dst[key] + value }] *)
Definition addAll (src dst : gmap Z Z) : gmap Z Z := map_fold addEntry dst src.

(** The two histogram loops of [MergeCrawlStats], on the fresh map
    [make(map[int]int)]: first [statsA.StatusCodes], then
    [statsB.StatusCodes]. *)
Definition mergedCodes (a b : gmap Z Z) : gmap Z Z := addAll b (addAll a ∅).

(** [MergeCrawlStats] *)
Definition MergeCrawlStats (statsA statsB : CrawlStats) : option CrawlStats :=
  let total := add (Total statsA) (Total statsB) in
  let max200 :=
    if decide (Max200Time statsA > Max200Time statsB)
    then Max200Time statsA else Max200Time statsB in
  let codes := mergedCodes (StatusCodes statsA) (StatusCodes statsB) in
  let nonOK := ([] ++ Non200Urls statsA) ++ Non200Urls statsB in
  if decide (Average200Time statsA ≠ 0 ∨ Average200Time statsB ≠ 0) then
    let total200ns :=
      add (mul (Average200Time statsA) (mget (StatusCodes statsA) 200))
          (mul (Average200Time statsB) (mget (StatusCodes statsB) 200)) in
    q ← div total200ns (mget codes 200);
    Some (mkCrawlStats total codes (mul q 1) max200 nonOK)
  else
    Some (mkCrawlStats total codes 0 max200 nonOK).

(** The fields of a [CrawlStats] other than the list of reports. *)
Definition statsFields (s : CrawlStats) : Z * Z * gmap Z Z * Z :=
  (Total s, Max200Time s, StatusCodes s, Average200Time s).

(** Every integer of the structure is a 64-bit value. *)
Definition wfStats (s : CrawlStats) : Prop :=
  in_range (Total s) /\ in_range (Average200Time s) /\ in_range (Max200Time s)
  /\ map_Forall (fun _ v => in_range v) (StatusCodes s).

(** The sum of the counts of a histogram, as a mathematical integer. *)
Definition sumCounts (m : gmap Z Z) : Z := map_fold (fun _ v acc => v + acc) 0 m.

(** The accounting invariant: the counts are non-negative and add up to
    [Total]. *)
Definition statsInv (s : CrawlStats) : Prop :=
  map_Forall (fun _ v => 0 <= v) (StatusCodes s)
  /\ Total s = sumCounts (StatusCodes s)
  /\ Total s <= max_int.

(** A [CrawlStats] with an average but no 200-count. *)
Definition avgOnlyStats : CrawlStats := mkCrawlStats 0 ∅ 5 0 [].

(** A [CrawlStats] with a negative maximum. *)
Definition negMaxStats : CrawlStats := mkCrawlStats 0 ∅ 0 (-1) [].

(** Two 200-responses of 15ns on average, 20ns at most. *)
Definition twoOKStats : CrawlStats := mkCrawlStats 2 {[ 200 := 2 ]} 15 20 [].

(** [HTTPConfig] *)
Record HTTPConfig := mkHTTPConfig {
  User : string;
  Pass : string;
  Timeout : Z;
  ParseLinks : bool;
  CustomHeader : string
}.

(** Modelled from the spec: the declaration of [Link] and of its type
    constants [Hyperlink] and [Image] is in a file of the package that is not
    part of this development.  The specification gives
    [Link = {targetURL, type : enum {Hyperlink, Image}, isExternal : bool}];
    [TargetURL] holds the text that [link.TargetURL.String()] returns. *)
Inductive LinkType := Hyperlink | Image.

#[global] Instance LinkType_eq_dec : EqDecision LinkType.
Proof. solve_decision. Defined.

Record Link := mkLink {
  LinkTy : LinkType;
  TargetURL : string;
  IsExternal : bool
}.

(** [HTTPResponse].  [ServerTime] is [None] when the [Result] pointer is nil
    and otherwise holds [result.Result.Total(result.EndTime)], the only use
    the statistics make of [Result] and [EndTime]. *)
Record HTTPResponse := mkHTTPResponse {
  URL : string;
  StatusCode : Z;
  ServerTime : option Z;
  Err : option string;
  Links : list Link
}.

(** [CrawlPageLinksConfig] *)
Record CrawlPageLinksConfig := mkLinksConfig {
  CrawlExternalLinks : bool;
  CrawlHyperlinks : bool;
  CrawlImages : bool
}.

(** [CrawlConfig]; the [HTTPGetter] field is the [getter] of the section
    below. *)
Record CrawlConfig := mkCrawlConfig {
  Throttle : Z;
  Host : string;
  HTTP : HTTPConfig;
  CLinks : CrawlPageLinksConfig
}.

Definition withParseLinks (b : bool) (c : HTTPConfig) : HTTPConfig :=
  mkHTTPConfig (User c) (Pass c) (Timeout c) b (CustomHeader c).

Definition withAverage (avg : Z) (s : CrawlStats) : CrawlStats :=
  mkCrawlStats (Total s) (StatusCodes s) avg (Max200Time s) (Non200Urls s).

(* ===================================================================== *)
(** ** The statistics aggregator *)

(** [populateCrawlStats]: the accumulator and the running sum of the
    200-latencies, which the caller passes by pointer, are threaded. *)
Definition populateCrawlStats (result : HTTPResponse)
    (acc : CrawlStats * Z) : CrawlStats * Z :=
  let '(stats, total200Time) := acc in
  let total := add (Total stats) 1 in
  let statusCode := StatusCode result in
  let serverTime := match ServerTime result with Some t => t | None => 0 end in
  let codes := <[statusCode := add (mget (StatusCodes stats) statusCode) 1]>
                 (StatusCodes stats) in
  if decide (statusCode = 200) then
    (mkCrawlStats total codes (Average200Time stats)
       (if decide (serverTime > Max200Time stats)
        then serverTime else Max200Time stats)
       (Non200Urls stats),
     add total200Time serverTime)
  else
    (mkCrawlStats total codes (Average200Time stats) (Max200Time stats)
       (Non200Urls stats ++ [mkCrawlResult (URL result) statusCode serverTime []]),
     total200Time).

(** The latencies that the record steps add to the sum: those of the
    results with status 200, in the order of their reception. *)
Definition ok200Times (results : list HTTPResponse) : list Z :=
  (fun r => default 0 (ServerTime r)) <$> filter (fun r => StatusCode r = 200) results.

(** The accumulator and the sum at the start of [crawlUrls]. *)
Definition freshAcc : CrawlStats * Z := (mkCrawlStats 0 ∅ 0 0 [], 0).

(** The state of the loop of [crawlUrls] after it has received [results]. *)
Definition recordAll (results : list HTTPResponse)
    (acc : CrawlStats * Z) : CrawlStats * Z :=
  foldl (fun a r => populateCrawlStats r a) acc results.

(** [results[result.URL] = result], for every received result in turn. *)
Definition indexByURL (results : list HTTPResponse) : gmap string HTTPResponse :=
  foldl (fun m r => <[URL r := r]> m) ∅ results.

(* ===================================================================== *)
(** ** The orchestrator *)

(** One invocation of [config.HTTPGetter.ConcurrentHTTPGet]. *)
Record GetCall := mkGetCall {
  gc_urls : list string;
  gc_config : HTTPConfig;
  gc_maxConcurrent : Z
}.

(** Computations that call the getter and may panic: the calls made so far
    are threaded, [None] is a panic. *)
Definition Crawl (A : Type) : Type := list GetCall -> option (A * list GetCall).

Definition ret {A} (a : A) : Crawl A := fun log => Some (a, log).

Definition bind {A B} (m : Crawl A) (k : A -> Crawl B) : Crawl B :=
  fun log => match m log with
             | Some (a, log') => k a log'
             | None => None
             end.

Definition orPanic {A} (o : option A) : Crawl A :=
  fun log => match o with Some a => Some (a, log) | None => None end.

#[global] Instance Crawl_ret : MRet Crawl := @ret.
#[global] Instance Crawl_bind : MBind Crawl := fun A B k m => bind m k.

(** The link filter of [crawlPageLinks]: [true] when the loop [continue]s. *)
Definition skipLink (policy : CrawlPageLinksConfig) (link : Link) : bool :=
  (negb (CrawlExternalLinks policy) && IsExternal link)
  || (negb (CrawlHyperlinks policy) && bool_decide (LinkTy link = Hyperlink))
  || (negb (CrawlImages policy) && bool_decide (LinkTy link = Image)).

(** The body of the inner loop of [crawlPageLinks] for one link of [result]. *)
Definition visitLink (sourceResults : gmap string HTTPResponse)
    (policy : CrawlPageLinksConfig) (result : HTTPResponse)
    (set : gmap string (list string)) (link : Link) : gmap string (list string) :=
  if skipLink policy link then set
  else if decide (is_Some (sourceResults !! TargetURL link)) then set
  else <[TargetURL link := default [] (set !! TargetURL link) ++ [URL result]]> set.

(** The two nested loops of [crawlPageLinks] that build [linkedUrlsSet]. *)
Definition collectLinks (sourceResults : gmap string HTTPResponse)
    (policy : CrawlPageLinksConfig) : gmap string (list string) :=
  map_fold
    (fun _ result set => foldl (visitLink sourceResults policy result) set (Links result))
    ∅ sourceResults.

(** [for url := range linkedUrlsSet { linkedUrls = append(linkedUrls, url) }] *)
Definition frontier (linkedUrlsSet : gmap string (list string)) : list string :=
  map_fold (fun url _ acc => acc ++ [url]) [] linkedUrlsSet.

(** The loop of [crawlPageLinks] that annotates the non-200 reports. *)
Definition annotate (linkedUrlsSet : gmap string (list string))
    (r : CrawlResult) : CrawlResult :=
  mkCrawlResult (cr_URL r) (cr_StatusCode r) (cr_Time r)
    (default [] (linkedUrlsSet !! cr_URL r)).

(** A link that neither test of the loop of [crawlPageLinks] skips: it
    passes the policy filter and its target is not a key of the source
    results. *)
Definition keepLink (sourceResults : gmap string HTTPResponse)
    (policy : CrawlPageLinksConfig) (link : Link) : bool :=
  negb (skipLink policy link)
  && bool_decide (sourceResults !! TargetURL link = None).

(** The URLs of the visited results that refer to [target] through a kept
    link, one per such link, in the order of the visit. *)
Definition referrersIn (sourceResults : gmap string HTTPResponse)
    (policy : CrawlPageLinksConfig) (target : string) (result : HTTPResponse)
    : list string :=
  flat_map (fun link =>
              if keepLink sourceResults policy link
                 && bool_decide (TargetURL link = target)
              then [URL result] else [])
           (Links result).

Definition referrers (sourceResults : gmap string HTTPResponse)
    (policy : CrawlPageLinksConfig) (visited : list HTTPResponse)
    (target : string) : list string :=
  flat_map (referrersIn sourceResults policy target) visited.

(** The order in which [collectLinks] visits the source results. *)
Definition visitOrder (sourceResults : gmap string HTTPResponse)
    : list HTTPResponse :=
  reverse (map_to_list sourceResults).*2.

(** An entry of [linkedUrlsSet] after further referrers are appended. *)
Definition appendRefs (entry : option (list string)) (refs : list string)
    : option (list string) :=
  match refs with
  | [] => entry
  | _ => Some (default [] entry ++ refs)
  end.

(** The configuration of phase 2: no link is collected any more. *)
Definition linksConfigOf (sourceConfig : CrawlConfig) : CrawlConfig :=
  mkCrawlConfig (Throttle sourceConfig) (Host sourceConfig)
    (withParseLinks false (HTTP sourceConfig))
    (mkLinksConfig false false false).

Definition withNon200 (l : list CrawlResult) (s : CrawlStats) : CrawlStats :=
  mkCrawlStats (Total s) (StatusCodes s) (Average200Time s) (Max200Time s) l.

Section Orchestrator.

(** The type of the [quit] channel. *)
Variable Quit : Type.

(** [config.HTTPGetter.ConcurrentHTTPGet]: the results received from the
    channel it returns, in the order of their reception, up to its close. *)
Variable getter : list string -> HTTPConfig -> Z -> Quit -> list HTTPResponse.

(** [RewriteURLHost], defined in a file of the package that is not part of
    this development. *)
Variable RewriteURLHost : list string -> string -> list string.

(** The results that a phase receives for [urls] under [config]. *)
Definition received (urls : list string) (config : CrawlConfig) (quit : Quit)
    : list HTTPResponse :=
  getter urls (HTTP config) (Throttle config) quit.

(** [crawlUrls] *)
Definition crawlUrls (urls : list string) (config : CrawlConfig) (quit : Quit)
    : Crawl (gmap string HTTPResponse * CrawlStats * Z) :=
  fun log =>
    let results := received urls config quit in
    let '(stats, server200TimeSum) := recordAll results freshAcc in
    Some ((indexByURL results, stats, server200TimeSum),
          log ++ [mkGetCall urls (HTTP config) (Throttle config)]).

(** [crawlPageLinks] *)
Definition crawlPageLinks (sourceResults : gmap string HTTPResponse)
    (sourceConfig : CrawlConfig) (quit : Quit)
    : Crawl (gmap string HTTPResponse * CrawlStats * Z) :=
  let linkedUrlsSet := collectLinks sourceResults (CLinks sourceConfig) in
  let linkedUrls := frontier linkedUrlsSet in
  let linksConfig := linksConfigOf sourceConfig in
  '(linksResults, linksStats, linksServer200TimeSum) ←
     crawlUrls linkedUrls linksConfig quit;
  mret (linksResults,
       withNon200 (map (annotate linkedUrlsSet) (Non200Urls linksStats)) linksStats,
       linksServer200TimeSum).

Definition errNoURL : string := "no URL crawled".
Definition errNon200 : string := "some URLs had a different status code than 200".

(** The classification at the end of [AsyncCrawl]. *)
Definition classify (stats : CrawlStats) : option string :=
  if decide (Total stats = 0) then Some errNoURL
  else if decide (Total stats ≠ mget (StatusCodes stats) 200) then Some errNon200
  else None.

(** The statistics of [AsyncCrawl] before the average is set: phase 1 and,
    when links are parsed, phase 2 merged into it. *)
Definition crawlPhases (urls : list string) (config : CrawlConfig) (quit : Quit)
    : Crawl (CrawlStats * Z) :=
  '(results, stats, server200TimeSum) ← crawlUrls urls config quit;
  if ParseLinks (HTTP config) then
    '(_, pageLinksStats, linksServer200TimeSum) ←
       crawlPageLinks results config quit;
    merged ← orPanic (MergeCrawlStats stats pageLinksStats);
    mret (merged, add server200TimeSum linksServer200TimeSum)
  else mret (stats, server200TimeSum).

(** The block of [AsyncCrawl] that sets the average. *)
Definition setAverage (stats : CrawlStats) (server200TimeSum : Z)
    : option CrawlStats :=
  let total200 := mget (StatusCodes stats) 200 in
  if decide (total200 > 0)
  then q ← div server200TimeSum total200; Some (withAverage q stats)
  else Some stats.

(** The last two blocks of [AsyncCrawl]: the average and the error. *)
Definition finalize (stats : CrawlStats) (server200TimeSum : Z)
    : Crawl (CrawlStats * option string) :=
  stats' ← orPanic (setAverage stats server200TimeSum);
  mret (stats', classify stats').

(** The first two blocks of [AsyncCrawl]: the throttle, the host. *)
Definition effectiveURLs (urls : list string) (config : CrawlConfig) : list string :=
  if decide (Host config ≠ "") then RewriteURLHost urls (Host config) else urls.

(** The configuration of phase 1: [config.Throttle] coerced and
    [config.HTTP.ParseLinks] set from the link policy. *)
Definition effectiveConfig (config : CrawlConfig) : CrawlConfig :=
  let throttle := if decide (Throttle config <= 0) then 1 else Throttle config in
  let parse := CrawlExternalLinks (CLinks config) || CrawlHyperlinks (CLinks config)
               || CrawlImages (CLinks config) in
  mkCrawlConfig throttle (Host config) (withParseLinks parse (HTTP config))
    (CLinks config).

(** [AsyncCrawl] *)
Definition AsyncCrawl (urls : list string) (config : CrawlConfig) (quit : Quit)
    : Crawl (CrawlStats * option string) :=
  '(stats, server200TimeSum) ←
     crawlPhases (effectiveURLs urls config) (effectiveConfig config) quit;
  finalize stats server200TimeSum.

End Orchestrator.

(** The values that a run of [AsyncCrawl] goes through, named for the
    statements below. *)
Section Phases.

Context {Quit : Type}.
Variable getter : list string -> HTTPConfig -> Z -> Quit -> list HTTPResponse.

(** The statistics and the sum that a phase leaves. *)
Definition phaseAcc (urls : list string) (config : CrawlConfig) (quit : Quit)
    : CrawlStats * Z :=
  recordAll (received Quit getter urls config quit) freshAcc.

(** The URLs of phase 2, given those of phase 1. *)
Definition linkedUrlsOf (urls : list string) (config : CrawlConfig) (quit : Quit)
    : list string :=
  frontier (collectLinks (indexByURL (received Quit getter urls config quit))
              (CLinks config)).

(** The statistics of the two phases, merged. *)
Definition mergedPhases (urls : list string) (config : CrawlConfig) (quit : Quit)
    : CrawlStats :=
  let s1 := (phaseAcc urls config quit).1 in
  let set := collectLinks (indexByURL (received Quit getter urls config quit))
               (CLinks config) in
  let s2 := (phaseAcc (frontier set) (linksConfigOf config) quit).1 in
  mkCrawlStats (add (Total s1) (Total s2))
    (mergedCodes (StatusCodes s1) (StatusCodes s2)) 0
    (if decide (Max200Time s1 > Max200Time s2) then Max200Time s1 else Max200Time s2)
    (([] ++ Non200Urls s1) ++ map (annotate set) (Non200Urls s2)).

(** What [crawlPhases] leaves for the last blocks of [AsyncCrawl]. *)
Definition phasesResult (urls : list string) (config : CrawlConfig) (quit : Quit)
    : CrawlStats * Z :=
  if ParseLinks (HTTP config) then
    (mergedPhases urls config quit,
     add (phaseAcc urls config quit).2
         (phaseAcc (linkedUrlsOf urls config quit) (linksConfigOf config) quit).2)
  else phaseAcc urls config quit.

End Phases.

(* ===================================================================== *)
(** ** Sample collaborators *)

(** A getter that answers every URL with status 200 after 10ns. *)
Definition okGetter (urls : list string) (_ : HTTPConfig) (_ : Z) (_ : unit)
    : list HTTPResponse :=
  map (fun u => mkHTTPResponse u 200 (Some 10) None []) urls.

(** A host rewriting that leaves the URLs alone. *)
Definition idRewrite (urls : list string) (_ : string) : list string := urls.

Definition plainHTTP : HTTPConfig := mkHTTPConfig "" "" 0 false "".

(** A configuration that follows no link. *)
Definition noLinksConfig : CrawlConfig :=
  mkCrawlConfig 2 "" plainHTTP (mkLinksConfig false false false).

(** Two pages: [a] links to [x] (hyperlink), to [y] (external image) and to
    [b]; [b] links to [x]. *)
Definition samplePages : gmap string HTTPResponse :=
  indexByURL
    [mkHTTPResponse "a" 200 (Some 10) None
       [mkLink Hyperlink "x" false; mkLink Image "y" true; mkLink Hyperlink "b" false];
     mkHTTPResponse "b" 200 (Some 10) None [mkLink Hyperlink "x" false]].

Definition hyperlinksOnly : CrawlPageLinksConfig := mkLinksConfig false true false.

(* ===================================================================== *)
(** ** The fetcher ([http.go]) *)

(** [http.Response], as far as [HTTPGet] reads it. *)
Record RawResponse (Body : Type) := mkRawResponse {
  raw_StatusCode : Z;
  raw_Body : Body
}.
Arguments mkRawResponse {Body} _ _.
Arguments raw_StatusCode {Body} _.
Arguments raw_Body {Body} _.

(** What [client.Do(req)] returns.  Per the documentation of [net/http], a
    nil error comes with a response, and "a non-nil Response with a non-nil
    error only occurs when CheckRedirect fails" (with the default client:
    after ten redirects). *)
Inductive DoOutcome (Body : Type) :=
  | DoResponse (resp : RawResponse Body)
  | DoError (err : string)
  | DoRedirectError (resp : RawResponse Body) (err : string).
Arguments DoResponse {Body} _.
Arguments DoError {Body} _.
Arguments DoRedirectError {Body} _ _.

Section Fetcher.

(** [*http.Client], [io.ReadCloser] and [url.URL]. *)
Variables Client Body ParsedURL : Type.

(** The error of [createRequest] ([http.NewRequest]), if any. *)
Variable createRequestErr : string -> option string.

(** [client.Do] on the request for [url] that [configureRequest] has
    prepared from [config]. *)
Variable clientDo : Client -> string -> HTTPConfig -> DoOutcome Body.

(** [result.Total(time.Now())] for the request to [url]. *)
Variable totalTime : Client -> string -> Z.

(** [url.Parse]; [None] is an error. *)
Variable urlParse : string -> option ParsedURL.

(** [ExtractLinks], defined in a file of the package that is not part of
    this development: the links and the error, if any. *)
Variable ExtractLinks : Body -> ParsedURL -> list Link * option string.

(** The part of [HTTPGet] after a [client.Do] without error. *)
Definition parseLinks (urlStr : string) (config : HTTPConfig)
    (resp : RawResponse Body) : list Link :=
  if ParseLinks config then
    match urlParse urlStr with
    | None => []
    | Some currentURL => (ExtractLinks (raw_Body resp) currentURL).1
    end
  else [].

(** [HTTPGet].  The deferred function closes the body and logs: it leaves
    the response alone. *)
Definition HTTPGet (client : Client) (urlStr : string) (config : HTTPConfig)
    : HTTPResponse :=
  match createRequestErr urlStr with
  | Some err => mkHTTPResponse urlStr 0 None (Some err) []
  | None =>
    let serverTime := Some (totalTime client urlStr) in
    match clientDo client urlStr config with
    | DoError err => mkHTTPResponse urlStr 0 serverTime (Some err) []
    | DoRedirectError resp err =>
        mkHTTPResponse urlStr (raw_StatusCode resp) serverTime (Some err) []
    | DoResponse resp =>
        mkHTTPResponse urlStr (raw_StatusCode resp) serverTime None
          (parseLinks urlStr config resp)
    end
  end.

End Fetcher.

(** A client whose every request ends in a redirect loop: the last response
    has status 302 and [client.Do] reports the policy error. *)
Definition redirectLoop (_ : unit) (_ : string) (_ : HTTPConfig) : DoOutcome unit :=
  DoRedirectError (mkRawResponse 302 tt) "stopped after 10 redirects".

(** A server that answers 404 to every request. *)
Definition notFound (_ : unit) (_ : string) (_ : HTTPConfig) : DoOutcome unit :=
  DoResponse (mkRawResponse 404 tt).

(* ===================================================================== *)
(** ** The worker pool ([RunConcurrentGet]) *)

(** The goroutines of [RunConcurrentGet] interleave: the function is a
    transition system, whose state holds what its channels, its wait group
    and its goroutines hold, and whose transitions are the communications
    and the calls of the source.  A schedule is a list of events. *)
Module WorkerPool.

(** Where a worker goroutine stands: before [resultChan <- httpGet(...)],
    after it, and after the [clientsReady <- client] of its deferred
    function (what is left is [wg.Done()]). *)
Inductive Phase := Fetching | Sent | Returned.

#[global] Instance Phase_eq_dec : EqDecision Phase.
Proof. solve_decision. Defined.

(** A goroutine started by the loop, with its two arguments.  The clients
    are told apart by the rank of their creation. *)
Record Worker := mkWorker {
  w_client : nat;
  w_url : string;
  w_phase : Phase
}.

(** Where the goroutine of [RunConcurrentGet] itself stands: in its loop,
    in the [wg.Wait()] of its deferred function, after [close(resultChan)]. *)
Inductive MainState := Dispatching | Waiting | Closed.

#[global] Instance MainState_eq_dec : EqDecision MainState.
Proof. solve_decision. Defined.

Record Pool := mkPool {
  pending : list string;           (* the URLs the loop has not reached *)
  clientsReady : list nat;         (* the content of the channel, oldest first *)
  workers : list Worker;           (* the goroutines started and not finished *)
  resultChan : list HTTPResponse;  (* the values sent so far, in order *)
  started : list (nat * string);   (* the [go] statements executed so far *)
  wg : Z;                          (* the counter of [sync.WaitGroup] *)
  quitFired : bool;                (* [quit] is ready for reception *)
  mainState : MainState
}.

(** The transitions.  [QuitFires] is the environment's; the others are the
    program's.  In the [select], both cases may be ready: Go then picks one
    of them, [Dispatch] or [TakeQuit]. *)
Inductive Event :=
  | QuitFires
  | Dispatch          (* [case client := <-clientsReady], [wg.Add(1)], [go] *)
  | TakeQuit          (* [case <-quit], [return] *)
  | LoopEnd           (* the [range] is exhausted *)
  | Send (i : nat)    (* worker [i]: [resultChan <- httpGet(client, url, config)] *)
  | Return (i : nat)  (* worker [i]: [clientsReady <- client] *)
  | Done (i : nat)    (* worker [i]: [wg.Done()] *)
  | Close.            (* [wg.Wait()] returns, [close(resultChan)] *)

Definition isProgram (e : Event) : bool :=
  match e with QuitFires => false | _ => true end.

(** The worker holds a client: it has not yet sent it back. *)
Definition holds (w : Worker) : bool :=
  match w_phase w with Fetching | Sent => true | Returned => false end.

(** The worker's fetch is running. *)
Definition fetching (w : Worker) : bool :=
  match w_phase w with Fetching => true | _ => false end.

Section Run.

(** The [httpGet] and [config] arguments of [RunConcurrentGet]. *)
Variable httpGet : nat -> string -> HTTPConfig -> HTTPResponse.
Variable config : HTTPConfig.

(** The state when the loop is entered: [maxConcurrent] clients are in
    [clientsReady].  [make] panics on a negative capacity. *)
Definition init (urls : list string) (maxConcurrent : Z) : option Pool :=
  if decide (maxConcurrent < 0) then None
  else Some (mkPool urls (seq 0 (Z.to_nat maxConcurrent)) [] [] [] 0 false
               Dispatching).

Definition next (e : Event) (s : Pool) : option Pool :=
  match e with
  | QuitFires =>
      if quitFired s then None
      else Some (mkPool (pending s) (clientsReady s) (workers s) (resultChan s)
                   (started s) (wg s) true (mainState s))
  | Dispatch =>
      match mainState s, pending s, clientsReady s with
      | Dispatching, url :: urls, client :: clients =>
          Some (mkPool urls clients (workers s ++ [mkWorker client url Fetching])
                  (resultChan s) (started s ++ [(client, url)]) (wg s + 1)
                  (quitFired s) Dispatching)
      | _, _, _ => None
      end
  | TakeQuit =>
      match mainState s, pending s, quitFired s with
      | Dispatching, _ :: _, true =>
          Some (mkPool (pending s) (clientsReady s) (workers s) (resultChan s)
                  (started s) (wg s) true Waiting)
      | _, _, _ => None
      end
  | LoopEnd =>
      match mainState s, pending s with
      | Dispatching, [] =>
          Some (mkPool [] (clientsReady s) (workers s) (resultChan s)
                  (started s) (wg s) (quitFired s) Waiting)
      | _, _ => None
      end
  | Send i =>
      match workers s !! i with
      | Some (mkWorker client url Fetching) =>
          Some (mkPool (pending s) (clientsReady s)
                  (<[i := mkWorker client url Sent]> (workers s))
                  (resultChan s ++ [httpGet client url config])
                  (started s) (wg s) (quitFired s) (mainState s))
      | _ => None
      end
  | Return i =>
      match workers s !! i with
      | Some (mkWorker client url Sent) =>
          Some (mkPool (pending s) (clientsReady s ++ [client])
                  (<[i := mkWorker client url Returned]> (workers s))
                  (resultChan s) (started s) (wg s) (quitFired s) (mainState s))
      | _ => None
      end
  | Done i =>
      match workers s !! i with
      | Some (mkWorker client url Returned) =>
          Some (mkPool (pending s) (clientsReady s) (delete i (workers s))
                  (resultChan s) (started s) (wg s - 1) (quitFired s)
                  (mainState s))
      | _ => None
      end
  | Close =>
      match mainState s with
      | Waiting =>
          if decide (wg s = 0)
          then Some (mkPool (pending s) (clientsReady s) (workers s) (resultChan s)
                       (started s) (wg s) (quitFired s) Closed)
          else None
      | _ => None
      end
  end.

(** The state after a schedule, when every event of it is enabled in turn. *)
Fixpoint run (es : list Event) (s : Pool) : option Pool :=
  match es with
  | [] => Some s
  | e :: es' => match next e s with Some s' => run es' s' | None => None end
  end.

(** The states of [RunConcurrentGet urls maxConcurrent]. *)
Definition reachable (urls : list string) (maxConcurrent : Z) (s : Pool) : Prop :=
  exists s0 es, init urls maxConcurrent = Some s0 /\ run es s0 = Some s.

(** The result of the fetch that a [go] statement started. *)
Definition fetched (p : nat * string) : HTTPResponse := httpGet p.1 p.2 config.

Definition fetchedBy (w : Worker) : HTTPResponse :=
  httpGet (w_client w) (w_url w) config.



(** The invariant of the pool. *)
Definition poolInv (urls : list string) (maxConcurrent : Z) (s : Pool) : Prop :=
  wg s = Z.of_nat (length (workers s))
  /\ clientsReady s ++ (w_client <$> filter (fun w => holds w = true) (workers s))
     ≡ₚ seq 0 (Z.to_nat maxConcurrent)
  /\ (started s).*2 ++ pending s = urls
  /\ resultChan s ++ (fetchedBy <$> filter (fun w => fetching w = true) (workers s))
     ≡ₚ fetched <$> started s
  /\ (mainState s = Closed -> workers s = []).

End Run.

(** A fetch that returns the URL with status 200. *)
Definition okGet (_ : nat) (url : string) (_ : HTTPConfig) : HTTPResponse :=
  mkHTTPResponse url 200 (Some 10) None [].

(** Three URLs, two clients, after the first two [go] statements. *)
Definition twoFetching : Pool :=
  mkPool ["c"] [] [mkWorker 0 "a" Fetching; mkWorker 1 "b" Fetching] []
    [(0%nat, "a"); (1%nat, "b")] 2 false Dispatching.

End WorkerPool.

(* ===================================================================== *)
(** ** Further notions for the statements on the statistics *)

(** The report that [populateCrawlStats] appends for a result whose status
    is not 200. *)
Definition reportOf (result : HTTPResponse) : CrawlResult :=
  mkCrawlResult (URL result) (StatusCode result)
    (match ServerTime result with Some t => t | None => 0 end) [].

(** The number of results with a given status code. *)
Definition countStatus (code : Z) (results : list HTTPResponse) : Z :=
  Z.of_nat (length (filter (fun r => StatusCode r = code) results)).

(** Three statistics sets whose averages are not set. *)
Definition statsP : CrawlStats :=
  mkCrawlStats 3 {[ 200 := 2; 404 := 1 ]} 0 20 [mkCrawlResult "p" 404 5 []].
Definition statsQ : CrawlStats :=
  mkCrawlStats 1 {[ 500 := 1 ]} 0 0 [mkCrawlResult "q" 500 7 []].
Definition statsR : CrawlStats :=
  mkCrawlStats 2 {[ 200 := 2 ]} 0 30 [].

(** Two statistics sets with their averages. *)
Definition statsA15 : CrawlStats := mkCrawlStats 2 {[ 200 := 2 ]} 15 20 [].
Definition statsB30 : CrawlStats := mkCrawlStats 1 {[ 200 := 1 ]} 30 30 [].

(** Three received results: two 200s and a 404. *)
Definition threeResults : list HTTPResponse :=
  [mkHTTPResponse "u1" 200 (Some 10) None [];
   mkHTTPResponse "u2" 404 (Some 3) None [];
   mkHTTPResponse "u3" 200 (Some 25) None []].

(** A configuration with a non-positive throttle that follows hyperlinks. *)
Definition zeroThrottleConfig : CrawlConfig :=
  mkCrawlConfig 0 "" plainHTTP (mkLinksConfig false true false).

(** A getter whose pages, when their links are parsed, both link to [x],
    and which answers a request without link parsing with status 500. *)
Definition linkingGetter (urls : list string) (c : HTTPConfig) (_ : Z) (_ : unit)
    : list HTTPResponse :=
  if ParseLinks c
  then [mkHTTPResponse "a" 200 (Some 10) None [mkLink Hyperlink "x" false];
        mkHTTPResponse "b" 200 (Some 10) None [mkLink Hyperlink "x" false]]
  else map (fun u => mkHTTPResponse u 500 (Some 7) None []) urls.


(* ===================================================================== *)
(** ** The request of the fetcher ([configureRequest]) *)

(** [*http.Request], as far as [configureRequest] writes it: the
    credentials given to [SetBasicAuth] and the pairs given to
    [Header.Add], oldest first. *)
Record Request := mkRequest {
  rq_url : string;
  rq_basicAuth : option (string * string);
  rq_headers : list (string * string)
}.

(** The text before the first occurrence of the byte [sep] and the text
    after it; [None] when [sep] does not occur. *)
Fixpoint cutAt (sep : Ascii.ascii) (s : string) : option (string * string) :=
  match s with
  | EmptyString => None
  | String c rest =>
      if Ascii.eqb c sep then Some (EmptyString, rest)
      else match cutAt sep rest with
           | Some (before, after) => Some (String c before, after)
           | None => None
           end
  end.

(** The byte [':'] (0x3A). *)
Definition colon : Ascii.ascii := Ascii.ascii_of_nat 58.

(** [strings.SplitN(s, ":", 2)] *)
Definition splitColon2 (s : string) : list string :=
  match cutAt colon s with
  | Some (before, after) => [before; after]
  | None => [s]
  end.

Section ConfigureRequest.

(** [strings.TrimSpace] *)
Variable TrimSpace : string -> string.

(** [configureRequest] *)
Definition configureRequest (req : Request) (config : HTTPConfig) : Request :=
  let req1 :=
    if decide (0 < String.length (User config))%nat
    then mkRequest (rq_url req) (Some (User config, Pass config)) (rq_headers req)
    else req in
  if decide (0 < String.length (CustomHeader config))%nat then
    match splitColon2 (CustomHeader config) with
    | [part0; part1] =>
        mkRequest (rq_url req1) (rq_basicAuth req1)
          (rq_headers req1 ++ [(TrimSpace part0, TrimSpace part1)])
    | _ => req1
    end
  else req1.

End ConfigureRequest.

(** [c] does not occur in [s]. *)
Fixpoint lacks (c : Ascii.ascii) (s : string) : Prop :=
  match s with
  | EmptyString => True
  | String d rest => d ≠ c /\ lacks c rest
  end.

(* ===================================================================== *)
(** ** The sitemap ([GetSitemapUrls]) *)

Section Sitemap.

(** [*url.URL] *)
Variable ParsedURL : Type.

(** [sitemap.Get(sitemapURL, nil)]: the [Loc] of the entries of the sitemap,
    in order, and the error, if any. *)
Variable sitemapGet : string -> list string * option string.

(** [url.Parse]; [None] is an error. *)
Variable urlParse : string -> option ParsedURL.

(** The method [String] of [url.URL]. *)
Variable urlString : ParsedURL -> string.

(** [GetSitemapUrls]: the error of [url.Parse] is local to the loop. *)
Definition GetSitemapUrls (sitemapURL : string) : list ParsedURL * option string :=
  match sitemapGet sitemapURL with
  | (_, Some err) => ([], Some err)
  | (locs, None) =>
      (foldl (fun urls loc =>
                match urlParse loc with
                | None => urls
                | Some newURL => urls ++ [newURL]
                end) [] locs,
       None)
  end.

(** [GetSitemapUrlsAsStrings] *)
Definition GetSitemapUrlsAsStrings (sitemapURL : string)
    : list string * option string :=
  let '(typedUrls, err) := GetSitemapUrls sitemapURL in
  (foldl (fun urls url => urls ++ [urlString url]) [] typedUrls, err).

End Sitemap.

(** A header whose value holds a colon. *)
Definition hostHeaderConfig : HTTPConfig :=
  mkHTTPConfig "" "" 0 false "X-Forwarded-Host: example.org:8080".

(** Two URLs fetched one after the other by a single client, the channel
    closed. *)
Definition closedAB : WorkerPool.Pool :=
  WorkerPool.mkPool [] [0%nat] []
    [WorkerPool.okGet 0 "a" plainHTTP; WorkerPool.okGet 0 "b" plainHTTP]
    [(0%nat, "a"); (0%nat, "b")] 0 false WorkerPool.Closed.

(* ===================================================================== *)
(** ** The results of a whole crawl *)

(** The sum of a list of integers. *)
Definition sumZ (l : list Z) : Z := foldr Z.add 0 l.

(** The results that the two phases of a crawl receive: those of phase 1
    and, when links are parsed, those of phase 2. *)
Definition receivedAll {Quit : Type}
    (getter : list string -> HTTPConfig -> Z -> Quit -> list HTTPResponse)
    (urls : list string) (config : CrawlConfig) (quit : Quit)
    : list HTTPResponse :=
  received Quit getter urls config quit
  ++ (if ParseLinks (HTTP config)
      then received Quit getter (linkedUrlsOf getter urls config quit)
             (linksConfigOf config) quit
      else []).

(* ===================================================================== *)
(** ** The batches of the earlier crawler (package [util]) *)

Module Batch.

(** The bounds of the slice [urls[low : high+1]] that iteration [i] of the
    loop of [util.AsyncCrawl] takes, for [numUrls = len(urls)]. *)
Definition bounds (numUrls throttle i : Z) : Z * Z :=
  let low := mul i throttle in
  let high := add (add low throttle) (-1) in
  let high := if decide (high > numUrls) then add numUrls (-1) else high in
  (low, add high 1).

End Batch.
(* ===================================================================== *)
(** ** Arithmetic of the wrap-around *)

Lemma wrap_in_range x : in_range (wrap x).
Proof.
  unfold in_range, wrap, min_int, max_int.
  pose proof (Z.mod_pos_bound (x + 2 ^ 63) (2 ^ 64) ltac:(lia)). lia.
Qed.

Lemma wrap_id x : in_range x -> wrap x = x.
Proof.
  unfold in_range, wrap, min_int, max_int. intros H.
  rewrite Z.mod_small by lia. lia.
Qed.

Lemma wrap_mod x : wrap x mod 2 ^ 64 = x mod 2 ^ 64.
Proof.
  unfold wrap.
  rewrite <- Zminus_mod_idemp_l, Z.mod_mod by lia.
  rewrite Zminus_mod_idemp_l. f_equal. lia.
Qed.

Lemma wrap_congr x y : x mod 2 ^ 64 = y mod 2 ^ 64 -> wrap x = wrap y.
Proof.
  intros H. unfold wrap.
  rewrite <- (Zplus_mod_idemp_l x), <- (Zplus_mod_idemp_l y), H. reflexivity.
Qed.

Lemma wrap_add_l x y : wrap (wrap x + y) = wrap (x + y).
Proof.
  apply wrap_congr.
  rewrite <- Zplus_mod_idemp_l, wrap_mod, Zplus_mod_idemp_l. reflexivity.
Qed.

Lemma wrap_add_r x y : wrap (x + wrap y) = wrap (x + y).
Proof. rewrite (Z.add_comm x), wrap_add_l. f_equal. lia. Qed.

Lemma add_comm x y : add x y = add y x.
Proof. unfold add. f_equal. lia. Qed.

Lemma add_exact x y : in_range (x + y) -> add x y = x + y.
Proof. apply wrap_id. Qed.

Lemma mul_one x : in_range x -> mul x 1 = x.
Proof. intros H. unfold mul. rewrite Z.mul_1_r. now apply wrap_id. Qed.

(* ===================================================================== *)
(** ** The histogram loops *)

Lemma mget_empty k : mget ∅ k = 0.
Proof. unfold mget. now rewrite lookup_empty. Qed.

Lemma mget_insert (m : gmap Z Z) k v : mget (<[k := v]> m) k = v.
Proof. unfold mget. now rewrite lookup_insert_eq. Qed.

Lemma mget_insert_ne (m : gmap Z Z) k j v : k ≠ j -> mget (<[k := v]> m) j = mget m j.
Proof. intros H. unfold mget. now rewrite lookup_insert_ne. Qed.

(** The map that the loop [for key, value := range src] leaves, key by key;
    it does not depend on the order of the visit. *)
Lemma addAll_lookup (src dst : gmap Z Z) k :
  addAll src dst !! k =
  match src !! k with
  | Some v => Some (add (mget dst k) v)
  | None => dst !! k
  end.
Proof.
  unfold addAll. revert k.
  apply (map_fold_weak_ind
    (fun r m => forall k, r !! k =
       match m !! k with Some v => Some (add (mget dst k) v) | None => dst !! k end)).
  - intros k. now rewrite lookup_empty.
  - intros i x m r Hi IH k. unfold addEntry.
    destruct (decide (i = k)) as [->|Hne].
    + rewrite !lookup_insert_eq. unfold mget at 1. rewrite IH, Hi. reflexivity.
    + rewrite !lookup_insert_ne by done. apply IH.
Qed.

Lemma mget_addAll (src dst : gmap Z Z) k :
  mget (addAll src dst) k =
  match src !! k with
  | Some v => add (mget dst k) v
  | None => mget dst k
  end.
Proof. unfold mget at 1. rewrite addAll_lookup. now destruct (src !! k). Qed.

Lemma mergedCodes_lookup (a b : gmap Z Z) k :
  mergedCodes a b !! k =
  match a !! k, b !! k with
  | Some x, Some y => Some (wrap (x + y))
  | Some x, None => Some (wrap x)
  | None, Some y => Some (wrap y)
  | None, None => None
  end.
Proof.
  unfold mergedCodes. rewrite addAll_lookup, mget_addAll, addAll_lookup.
  rewrite mget_empty, lookup_empty. unfold add.
  destruct (a !! k), (b !! k); simpl; try reflexivity.
  now rewrite wrap_add_l.
Qed.

Lemma mergedCodes_comm (a b : gmap Z Z) : mergedCodes a b = mergedCodes b a.
Proof.
  apply map_eq. intros k. rewrite !mergedCodes_lookup.
  destruct (a !! k), (b !! k); try reflexivity. do 2 f_equal. lia.
Qed.

Lemma mget_mergedCodes (a b : gmap Z Z) k :
  mget (mergedCodes a b) k = wrap (mget a k + mget b k).
Proof.
  unfold mget. rewrite mergedCodes_lookup.
  destruct (a !! k), (b !! k); simpl; try reflexivity.
  - f_equal. lia.
Qed.

(* ===================================================================== *)
(** ** [MergeCrawlStats] *)

Example merge_zero_zero : MergeCrawlStats zeroStats zeroStats = Some zeroStats.
Proof. reflexivity. Qed.

Example merge_two_ok :
  MergeCrawlStats twoOKStats (mkCrawlStats 1 {[ 200 := 1 ]} 30 30 [])
  = Some (mkCrawlStats 3 {[ 200 := 3 ]} 20 30 []).
Proof. vm_compute. reflexivity. Qed.

(** When neither average is set, the merge returns and leaves the average
    at zero. *)
Lemma merge_no_average a b :
  Average200Time a = 0 -> Average200Time b = 0 ->
  MergeCrawlStats a b =
  Some (mkCrawlStats (add (Total a) (Total b))
          (mergedCodes (StatusCodes a) (StatusCodes b)) 0
          (if decide (Max200Time a > Max200Time b) then Max200Time a else Max200Time b)
          (([] ++ Non200Urls a) ++ Non200Urls b)).
Proof.
  intros Ha Hb. unfold MergeCrawlStats.
  destruct (decide _) as [[H|H]|_]; [congruence..|reflexivity].
Qed.

(** When an average is set and the 200-counts do not add up to zero (modulo
    the word size), the merge returns the weighted average, in the
    arithmetic of 64-bit integers. *)
Lemma merge_average_weighted a b :
  Average200Time a ≠ 0 \/ Average200Time b ≠ 0 ->
  let na := mget (StatusCodes a) 200 in
  let nb := mget (StatusCodes b) 200 in
  wrap (na + nb) ≠ 0 ->
  Average200Time <$> MergeCrawlStats a b =
  Some (wrap (Z.quot (wrap (Average200Time a * na + Average200Time b * nb))
                     (wrap (na + nb)))).
Proof.
  intros Havg na nb Hn. unfold MergeCrawlStats.
  destruct (decide _) as [_|H]; [|tauto].
  rewrite mget_mergedCodes. fold na nb. unfold div.
  destruct (decide (wrap (na + nb) = 0)) as [H0|_]; [destruct (Hn H0)|]. simpl.
  f_equal. unfold mul, add. rewrite Z.mul_1_r, wrap_add_l, wrap_add_r.
  apply wrap_id, wrap_in_range.
Qed.

(** Without overflow this is the weighted average of the specification. *)
Lemma merge_average_weighted_exact a b :
  Average200Time a ≠ 0 \/ Average200Time b ≠ 0 ->
  let na := mget (StatusCodes a) 200 in
  let nb := mget (StatusCodes b) 200 in
  0 <= na -> 0 <= nb -> 0 < na + nb -> na + nb <= max_int ->
  0 <= Average200Time a -> 0 <= Average200Time b ->
  Average200Time a * na + Average200Time b * nb <= max_int ->
  Average200Time <$> MergeCrawlStats a b =
  Some ((Average200Time a * na + Average200Time b * nb) `quot` (na + nb)).
Proof.
  intros Havg na nb Hna Hnb Hpos Hmax Ha Hb Hsum.
  assert (Hr1 : in_range (na + nb)) by (unfold in_range, min_int, max_int in *; lia).
  assert (Hr2 : in_range (Average200Time a * na + Average200Time b * nb))
    by (unfold in_range, min_int, max_int in *; nia).
  rewrite merge_average_weighted by (try done; fold na nb; rewrite wrap_id by done; lia).
  fold na nb. rewrite (wrap_id (na + nb)), (wrap_id (_ * _ + _)) by done.
  f_equal. apply wrap_id.
  set (s := Average200Time a * na + Average200Time b * nb) in *.
  assert (0 <= s) by (unfold s; nia).
  assert (0 <= s `quot` (na + nb) <= s).
  { split; [apply Z.quot_pos; lia|]. apply Z.quot_le_upper_bound; nia. }
  unfold in_range, min_int, max_int in *. lia.
Qed.

(** The merge panics exactly when an average is set and the merged
    200-count is zero. *)
Lemma merge_panics_iff a b :
  MergeCrawlStats a b = None <->
  (Average200Time a ≠ 0 \/ Average200Time b ≠ 0)
  /\ wrap (mget (StatusCodes a) 200 + mget (StatusCodes b) 200) = 0.
Proof.
  unfold MergeCrawlStats.
  destruct (decide (Average200Time a ≠ 0 ∨ Average200Time b ≠ 0)) as [H|H].
  - rewrite mget_mergedCodes. unfold div.
    destruct (decide (wrap _ = 0)) as [H0|H0]; simpl.
    + split; [intros _; now split | reflexivity].
    + split; [discriminate | intros [_ E]; contradiction].
  - split; [discriminate | intros [E _]; contradiction].
Qed.

(** C1: with an average set in one input and a 200-count of zero in both,
    [MergeCrawlStats] does not return the zero duration: the guard of the
    division tests the averages, not the counts, and the division by the
    merged 200-count, which is zero, panics. *)
Theorem merge_average_zero_counts_panics :
  mget (StatusCodes avgOnlyStats) 200 = 0
  /\ mget (StatusCodes zeroStats) 200 = 0
  /\ MergeCrawlStats avgOnlyStats zeroStats = None.
Proof. repeat split. Qed.

(** Commutativity, panic included. *)
Lemma merge_comm a b :
  statsFields <$> MergeCrawlStats a b = statsFields <$> MergeCrawlStats b a.
Proof.
  unfold MergeCrawlStats.
  rewrite (mergedCodes_comm (StatusCodes b)), (add_comm (Total b)).
  rewrite (add_comm (mul (Average200Time b) _)).
  assert (Hmax : (if decide (Max200Time a > Max200Time b)
                  then Max200Time a else Max200Time b)
               = (if decide (Max200Time b > Max200Time a)
                  then Max200Time b else Max200Time a))
    by (repeat destruct (decide _); lia).
  rewrite Hmax.
  destruct (decide (Average200Time a ≠ 0 ∨ _)) as [H|H];
    destruct (decide (Average200Time b ≠ 0 ∨ _)) as [H'|H'];
    try reflexivity; try tauto.
  destruct (div _ _); reflexivity.
Qed.

Lemma mergedCodes_empty_r (a : gmap Z Z) :
  map_Forall (fun _ v => in_range v) a -> mergedCodes a ∅ = a.
Proof.
  intros Ha. apply map_eq. intros k.
  rewrite mergedCodes_lookup, lookup_empty.
  destruct (a !! k) as [v|] eqn:E; [|reflexivity].
  f_equal. apply wrap_id. exact (Ha k v E).
Qed.

(** The zero value is a right identity on the statistics whose maximum is
    not negative and whose average, when set, comes with a 200-count. *)
Lemma merge_zero_r a :
  wfStats a -> 0 <= Max200Time a ->
  (Average200Time a ≠ 0 ->
   mget (StatusCodes a) 200 ≠ 0
   /\ in_range (Average200Time a * mget (StatusCodes a) 200)) ->
  MergeCrawlStats a zeroStats = Some a.
Proof.
  intros (HT & HA & HM & HC) Hmax Havg.
  destruct a as [t c avg mx l]; simpl in *.
  unfold MergeCrawlStats; simpl.
  rewrite mergedCodes_empty_r by done.
  rewrite app_nil_r.
  replace (add t 0) with t by (unfold add; rewrite Z.add_0_r, wrap_id; done).
  replace (if decide (mx > 0) then mx else 0) with mx
    by (destruct (decide (mx > 0)); lia).
  destruct (decide (avg ≠ 0 ∨ 0 ≠ 0)) as [[H|H]|H]; [|done|].
  - destruct (Havg H) as [Hn Hr].
    assert (Hq : div (add (mul avg (mget c 200)) (mul 0 (mget ∅ 200))) (mget c 200)
                 = Some avg).
    { unfold div. destruct (decide (mget c 200 = 0)) as [|_]; [done|].
      f_equal. unfold add, mul. rewrite Z.mul_0_l, (wrap_id 0) by done.
      rewrite Z.add_0_r, wrap_add_l || rewrite Z.add_0_r.
      rewrite !(wrap_id (avg * _)) by (try rewrite wrap_id; done).
      rewrite Z.quot_mul by done. now apply wrap_id. }
    rewrite Hq. simpl. now rewrite mul_one.
  - assert (avg = 0) as -> by (destruct (decide (avg = 0)); tauto). done.
Qed.

Lemma in_range_small x : -1000000 <= x <= 1000000 -> in_range x.
Proof. unfold in_range, min_int, max_int. lia. Qed.

Lemma wfStats_twoOK : wfStats twoOKStats.
Proof.
  split; [|split; [|split]]; try (apply in_range_small; simpl; lia).
  apply map_Forall_singleton. apply in_range_small. lia.
Qed.

(** C2 (amended): [MergeCrawlStats] is commutative on the total, the maximum,
    the histogram and the average, the two orders panicking together; and
    the zero value is a right identity, list of reports included, for every
    [a] whose maximum is not negative and whose average, when it is set,
    comes with a 200-count (the product of the two being a 64-bit value). *)
Theorem merge_commutative_identity :
  (forall a b : CrawlStats,
     statsFields <$> MergeCrawlStats a b = statsFields <$> MergeCrawlStats b a)
  /\ (forall a : CrawlStats,
        wfStats a -> 0 <= Max200Time a ->
        (Average200Time a ≠ 0 ->
         mget (StatusCodes a) 200 ≠ 0
         /\ in_range (Average200Time a * mget (StatusCodes a) 200)) ->
        MergeCrawlStats a zeroStats = Some a).
Proof. split; [exact merge_comm | exact merge_zero_r]. Qed.

Lemma merge_commutative_identity_witness :
  MergeCrawlStats twoOKStats zeroStats = Some twoOKStats.
Proof.
  apply (proj2 merge_commutative_identity).
  - exact wfStats_twoOK.
  - simpl. lia.
  - intros _. split; [vm_compute; discriminate | apply in_range_small; vm_compute; split; discriminate].
Defined.

(** C2, as stated, fails: merging a statistics set whose maximum is negative
    with the zero value yields the maximum zero. *)
Lemma merge_zero_negative_max :
  wfStats negMaxStats
  /\ Max200Time negMaxStats = -1
  /\ Max200Time <$> MergeCrawlStats negMaxStats zeroStats = Some 0
  /\ statsFields <$> MergeCrawlStats negMaxStats zeroStats
     ≠ Some (statsFields negMaxStats).
Proof.
  split; [|split; [reflexivity|split; [reflexivity|]]].
  - split; [|split; [|split]]; try (apply in_range_small; simpl; lia).
    apply map_Forall_empty.
  - vm_compute. discriminate.
Qed.

(* ===================================================================== *)
(** ** The accounting invariant *)

Lemma sumCounts_empty : sumCounts ∅ = 0.
Proof. reflexivity. Qed.

Lemma sumCounts_insert_fresh (m : gmap Z Z) k v :
  m !! k = None -> sumCounts (<[k := v]> m) = v + sumCounts m.
Proof.
  intros H. unfold sumCounts. apply map_fold_insert_L; [|done].
  intros. lia.
Qed.

Lemma sumCounts_insert (m : gmap Z Z) k v :
  sumCounts (<[k := v]> m) = sumCounts m - mget m k + v.
Proof.
  unfold mget. destruct (m !! k) as [w|] eqn:E; simpl.
  - rewrite <- (insert_delete_id m k w) at 2 by done.
    rewrite <- (insert_delete_eq m k v).
    rewrite !sumCounts_insert_fresh by apply lookup_delete_eq. lia.
  - rewrite sumCounts_insert_fresh by done. lia.
Qed.

Lemma mget_le_sumCounts (m : gmap Z Z) k :
  map_Forall (fun _ v => 0 <= v) m -> 0 <= mget m k <= sumCounts m.
Proof.
  revert k. induction m as [|i x m Hi IH] using map_ind; intros k Hm.
  - rewrite mget_empty, sumCounts_empty. lia.
  - apply map_Forall_insert in Hm as [Hx Hm]; [|done].
    rewrite sumCounts_insert_fresh by done.
    destruct (decide (i = k)) as [->|Hne].
    + rewrite mget_insert. specialize (IH k Hm). lia.
    + rewrite mget_insert_ne by done. specialize (IH k Hm). lia.
Qed.

(** Each record step increments [Total] and one entry of the histogram
    together. *)
Lemma populate_inv r acc :
  statsInv acc.1 -> Total acc.1 < max_int -> statsInv (populateCrawlStats r acc).1.
Proof.
  destruct acc as [s t]. simpl. intros (Hnn & Hsum & Hmax) Hlt.
  pose proof (mget_le_sumCounts (StatusCodes s) (StatusCode r) Hnn) as Hk.
  assert (Ht : add (Total s) 1 = Total s + 1).
  { apply add_exact. unfold in_range, min_int, max_int in *. lia. }
  assert (Hc : add (mget (StatusCodes s) (StatusCode r)) 1
               = mget (StatusCodes s) (StatusCode r) + 1).
  { apply add_exact. unfold in_range, min_int, max_int in *. lia. }
  assert (Hinv : forall avg mx l,
    statsInv (mkCrawlStats (add (Total s) 1)
      (<[StatusCode r := add (mget (StatusCodes s) (StatusCode r)) 1]> (StatusCodes s))
      avg mx l)).
  { intros avg mx l. unfold statsInv; simpl. rewrite Ht, Hc.
    split; [|split].
    - apply map_Forall_insert_2; [lia|done].
    - rewrite sumCounts_insert. lia.
    - lia. }
  unfold populateCrawlStats.
  destruct (decide (StatusCode r = 200)); simpl; apply Hinv.
Qed.

Lemma populate_total r acc :
  Total (populateCrawlStats r acc).1 = add (Total acc.1) 1.
Proof. destruct acc. unfold populateCrawlStats. now destruct (decide _). Qed.

Lemma populate_codes r acc :
  StatusCodes (populateCrawlStats r acc).1 =
  <[StatusCode r := add (mget (StatusCodes acc.1) (StatusCode r)) 1]>
    (StatusCodes acc.1).
Proof. destruct acc. unfold populateCrawlStats. now destruct (decide _). Qed.

Lemma populate_average r acc :
  Average200Time (populateCrawlStats r acc).1 = Average200Time acc.1.
Proof. destruct acc. unfold populateCrawlStats. now destruct (decide _). Qed.

Lemma recordAll_snoc rs r acc :
  recordAll (rs ++ [r]) acc = populateCrawlStats r (recordAll rs acc).
Proof. unfold recordAll. now rewrite foldl_app. Qed.

Lemma recordAll_average rs acc :
  Average200Time (recordAll rs acc).1 = Average200Time acc.1.
Proof.
  induction rs as [|r rs IH] using rev_ind; [reflexivity|].
  now rewrite recordAll_snoc, populate_average.
Qed.

(** A phase that receives the results [rs], fewer than [2^63], counts each
    of them once. *)
Lemma recordAll_inv rs acc :
  statsInv acc.1 -> Total acc.1 + Z.of_nat (length rs) <= max_int ->
  statsInv (recordAll rs acc).1
  /\ Total (recordAll rs acc).1 = Total acc.1 + Z.of_nat (length rs).
Proof.
  intros Hs. induction rs as [|r rs IH] using rev_ind; intros Hlen.
  - simpl. split; [done|lia].
  - rewrite length_app in Hlen. simpl in Hlen.
    destruct IH as [Hinv Htot]; [lia|].
    rewrite recordAll_snoc. split.
    + apply populate_inv; [done|lia].
    + rewrite populate_total, length_app, Htot. simpl.
      rewrite add_exact; [lia|].
      destruct Hs as (Hnn & Hsum & _).
      pose proof (mget_le_sumCounts (StatusCodes acc.1) 0 Hnn).
      unfold in_range, min_int, max_int in *. lia.
Qed.

Lemma addAll_sum (src dst : gmap Z Z) :
  map_Forall (fun _ v => 0 <= v) dst ->
  map_Forall (fun _ v => 0 <= v) src ->
  sumCounts dst + sumCounts src <= max_int ->
  map_Forall (fun _ v => 0 <= v) (addAll src dst)
  /\ sumCounts (addAll src dst) = sumCounts dst + sumCounts src.
Proof.
  intros Hdst. unfold addAll.
  apply (map_fold_weak_ind
    (fun r m => map_Forall (fun _ v => 0 <= v) m ->
                sumCounts dst + sumCounts m <= max_int ->
                map_Forall (fun _ v => 0 <= v) r
                /\ sumCounts r = sumCounts dst + sumCounts m)).
  - intros _ _. rewrite sumCounts_empty. split; [done|lia].
  - intros i x m r Hi IH Hm Hle.
    apply map_Forall_insert in Hm as [Hx Hm]; [|done].
    rewrite sumCounts_insert_fresh in Hle |- * by done.
    pose proof (mget_le_sumCounts m i Hm) as Hmi.
    destruct IH as [Hr Hsum]; [done|lia|].
    pose proof (mget_le_sumCounts r i Hr) as Hri.
    pose proof (mget_le_sumCounts dst i Hdst) as Hdi.
    unfold addEntry. rewrite add_exact
      by (unfold in_range, min_int, max_int in *; lia).
    split.
    + apply map_Forall_insert_2; [lia|done].
    + rewrite sumCounts_insert. lia.
Qed.

Lemma mergedCodes_sum (a b : gmap Z Z) :
  map_Forall (fun _ v => 0 <= v) a ->
  map_Forall (fun _ v => 0 <= v) b ->
  sumCounts a + sumCounts b <= max_int ->
  map_Forall (fun _ v => 0 <= v) (mergedCodes a b)
  /\ sumCounts (mergedCodes a b) = sumCounts a + sumCounts b.
Proof.
  intros Ha Hb Hle. unfold mergedCodes.
  pose proof (mget_le_sumCounts b 0 Hb).
  destruct (addAll_sum a ∅) as [Hnn Hs];
    [apply map_Forall_empty | done | rewrite sumCounts_empty; lia |].
  rewrite sumCounts_empty in Hs.
  destruct (addAll_sum b (addAll a ∅)) as [Hnn' Hs']; [done|done|lia|].
  split; [done|lia].
Qed.

Lemma merge_total_codes a b s :
  MergeCrawlStats a b = Some s ->
  Total s = add (Total a) (Total b)
  /\ StatusCodes s = mergedCodes (StatusCodes a) (StatusCodes b).
Proof.
  unfold MergeCrawlStats.
  destruct (decide (_ ∨ _)); [destruct (div _ _); simpl|]; intros [= <-]; done.
Qed.

(** [MergeCrawlStats] adds the totals and adds the histograms key by key. *)
Lemma merge_inv a b s :
  statsInv a -> statsInv b -> Total a + Total b <= max_int ->
  MergeCrawlStats a b = Some s -> statsInv s.
Proof.
  intros (Ha & Hta & _) (Hb & Htb & _) Hle Hm.
  apply merge_total_codes in Hm as [Ht Hc].
  pose proof (mget_le_sumCounts _ 0 Ha). pose proof (mget_le_sumCounts _ 0 Hb).
  destruct (mergedCodes_sum (StatusCodes a) (StatusCodes b)) as [Hnn Hs];
    [done|done|lia|].
  unfold statsInv. rewrite Ht, Hc, add_exact
    by (unfold in_range, min_int, max_int in *; lia).
  split; [done|split; lia].
Qed.

(* ===================================================================== *)
(** ** Runs of the orchestrator *)

Lemma setAverage_returns stats sum :
  setAverage stats sum =
  Some (if decide (mget (StatusCodes stats) 200 > 0)
        then withAverage (wrap (Z.quot sum (mget (StatusCodes stats) 200))) stats
        else stats).
Proof.
  unfold setAverage. destruct (decide (_ > 0)) as [Hpos|]; [|reflexivity].
  unfold div. destruct (decide (_ = 0)); [lia|reflexivity].
Qed.

Lemma setAverage_total_codes stats sum s :
  setAverage stats sum = Some s ->
  Total s = Total stats /\ StatusCodes s = StatusCodes stats
  /\ Max200Time s = Max200Time stats /\ Non200Urls s = Non200Urls stats.
Proof.
  rewrite setAverage_returns. intros [= <-]. now destruct (decide _).
Qed.

Section Runs.

Context {Quit : Type}.
Variable getter : list string -> HTTPConfig -> Z -> Quit -> list HTTPResponse.
Variable RewriteURLHost : list string -> string -> list string.

Lemma crawlUrls_run urls config quit log :
  crawlUrls Quit getter urls config quit log =
  Some ((indexByURL (received Quit getter urls config quit),
         (phaseAcc getter urls config quit).1, (phaseAcc getter urls config quit).2),
        log ++ [mkGetCall urls (HTTP config) (Throttle config)]).
Proof.
  unfold crawlUrls, phaseAcc. now destruct (recordAll _ _).
Qed.

Lemma crawlPageLinks_run src config quit log :
  let set := collectLinks src (CLinks config) in
  let acc := phaseAcc getter (frontier set) (linksConfigOf config) quit in
  crawlPageLinks Quit getter src config quit log =
  Some ((indexByURL (received Quit getter (frontier set) (linksConfigOf config) quit),
         withNon200 (map (annotate set) (Non200Urls acc.1)) acc.1, acc.2),
        log ++ [mkGetCall (frontier set) (withParseLinks false (HTTP config))
                  (Throttle config)]).
Proof.
  intros set acc. unfold crawlPageLinks. fold set.
  unfold mbind, Crawl_bind, bind. rewrite crawlUrls_run. reflexivity.
Qed.

Lemma phaseAcc_average urls config quit :
  Average200Time (phaseAcc getter urls config quit).1 = 0.
Proof. unfold phaseAcc. now rewrite recordAll_average. Qed.

(** [crawlPhases] always returns: the merge of two accumulated statistics
    never divides. *)
Lemma crawlPhases_run urls config quit log :
  crawlPhases Quit getter urls config quit log =
  if ParseLinks (HTTP config) then
    Some ((mergedPhases getter urls config quit,
           add (phaseAcc getter urls config quit).2
               (phaseAcc getter (linkedUrlsOf getter urls config quit) (linksConfigOf config) quit).2),
          log ++ [mkGetCall urls (HTTP config) (Throttle config)]
              ++ [mkGetCall (linkedUrlsOf getter urls config quit)
                    (withParseLinks false (HTTP config)) (Throttle config)])
  else
    Some (phaseAcc getter urls config quit,
          log ++ [mkGetCall urls (HTTP config) (Throttle config)]).
Proof.
  unfold crawlPhases, mbind, Crawl_bind, bind. rewrite crawlUrls_run.
  destruct (ParseLinks (HTTP config)).
  - rewrite crawlPageLinks_run. unfold orPanic, mret, Crawl_ret, ret.
    rewrite merge_no_average by (simpl; apply phaseAcc_average).
    simpl. rewrite <- app_assoc. reflexivity.
  - unfold mret, Crawl_ret, ret. now destruct (phaseAcc getter urls config quit).
Qed.

Lemma phasesResult_average urls config quit :
  Average200Time (phasesResult getter urls config quit).1 = 0.
Proof.
  unfold phasesResult. destruct (ParseLinks _); [reflexivity|].
  apply phaseAcc_average.
Qed.

(** [AsyncCrawl] always returns, and what it returns. *)
Lemma AsyncCrawl_run urls config quit log :
  let urls' := effectiveURLs RewriteURLHost urls config in
  let config' := effectiveConfig config in
  let merged := (phasesResult getter urls' config' quit).1 in
  let sum := (phasesResult getter urls' config' quit).2 in
  let final :=
    if decide (mget (StatusCodes merged) 200 > 0)
    then withAverage (wrap (Z.quot sum (mget (StatusCodes merged) 200))) merged
    else merged in
  exists log',
    crawlPhases Quit getter urls' config' quit log = Some ((merged, sum), log')
    /\ AsyncCrawl Quit getter RewriteURLHost urls config quit log
       = Some ((final, classify final), log').
Proof.
  intros urls' config' merged sum final.
  unfold AsyncCrawl, mbind, Crawl_bind, bind. fold urls' config'.
  clearbody urls' config'. subst merged sum final.
  rewrite crawlPhases_run. unfold phasesResult.
  destruct (ParseLinks (HTTP config')).
  - eexists; split; [reflexivity|].
    unfold finalize, mbind, Crawl_bind, bind, orPanic.
    rewrite setAverage_returns. reflexivity.
  - destruct (phaseAcc getter urls' config' quit) as [s1 t1]. simpl.
    eexists; split; [reflexivity|].
    unfold finalize, mbind, Crawl_bind, bind, orPanic.
    rewrite setAverage_returns. reflexivity.
Qed.

End Runs.

(* ===================================================================== *)
(** ** The invariant along a crawl *)

Lemma statsInv_fresh : statsInv freshAcc.1.
Proof.
  split; [apply map_Forall_empty|split; [reflexivity|]].
  simpl. unfold max_int. lia.
Qed.

Section CrawlInvariant.

Context {Quit : Type}.
Variable getter : list string -> HTTPConfig -> Z -> Quit -> list HTTPResponse.

Lemma phaseAcc_inv urls config quit :
  Z.of_nat (length (received Quit getter urls config quit)) < 2 ^ 62 ->
  statsInv (phaseAcc getter urls config quit).1
  /\ Total (phaseAcc getter urls config quit).1 < 2 ^ 62.
Proof.
  intros Hb. unfold phaseAcc.
  destruct (recordAll_inv (received Quit getter urls config quit) freshAcc)
    as [Hinv Htot]; [exact statsInv_fresh | simpl; unfold max_int; lia |].
  split; [done|]. rewrite Htot. simpl. lia.
Qed.

Lemma mergedPhases_merge urls config quit :
  let set := collectLinks (indexByURL (received Quit getter urls config quit))
               (CLinks config) in
  let s2 := (phaseAcc getter (frontier set) (linksConfigOf config) quit).1 in
  MergeCrawlStats (phaseAcc getter urls config quit).1
    (withNon200 (map (annotate set) (Non200Urls s2)) s2)
  = Some (mergedPhases getter urls config quit).
Proof.
  intros set s2.
  rewrite merge_no_average by (simpl; apply phaseAcc_average).
  reflexivity.
Qed.

Lemma phasesResult_inv urls config quit :
  Z.of_nat (length (received Quit getter urls config quit)) < 2 ^ 62 ->
  Z.of_nat (length (received Quit getter (linkedUrlsOf getter urls config quit)
                      (linksConfigOf config) quit)) < 2 ^ 62 ->
  statsInv (phasesResult getter urls config quit).1.
Proof.
  intros Hb1 Hb2.
  pose proof (phaseAcc_inv urls config quit Hb1) as [H1 Ht1].
  unfold phasesResult. destruct (ParseLinks (HTTP config)); simpl; [|done].
  pose proof (phaseAcc_inv _ _ quit Hb2) as [H2 Ht2].
  eapply merge_inv; [exact H1| |
    |exact (mergedPhases_merge urls config quit)].
  + exact H2.
  + simpl. unfold linkedUrlsOf in Ht2. unfold max_int. lia.
Qed.

End CrawlInvariant.

(** C3: the total of a [CrawlStats] is the sum of the counts of its
    histogram.  The fresh accumulator satisfies it; each record step
    ([populateCrawlStats]) keeps it, incrementing the total and one entry
    together; [MergeCrawlStats] keeps it, adding the totals and the
    histograms key by key; and the statistics that [AsyncCrawl] returns
    satisfy it.  (The counts are 64-bit integers: the statement is that of a
    crawl that receives fewer than [2^62] results in each phase.) *)
Theorem total_is_sum_of_histogram :
  statsInv freshAcc.1
  /\ (forall r acc,
        statsInv acc.1 -> Total acc.1 < max_int ->
        statsInv (populateCrawlStats r acc).1
        /\ Total (populateCrawlStats r acc).1 = Total acc.1 + 1
        /\ StatusCodes (populateCrawlStats r acc).1
           = <[StatusCode r := mget (StatusCodes acc.1) (StatusCode r) + 1]>
               (StatusCodes acc.1)
        /\ sumCounts (StatusCodes (populateCrawlStats r acc).1)
           = sumCounts (StatusCodes acc.1) + 1)
  /\ (forall a b s,
        statsInv a -> statsInv b -> Total a + Total b <= max_int ->
        MergeCrawlStats a b = Some s ->
        statsInv s /\ Total s = Total a + Total b
        /\ forall k, mget (StatusCodes s) k
                     = mget (StatusCodes a) k + mget (StatusCodes b) k)
  /\ (forall (Quit : Type)
             (getter : list string -> HTTPConfig -> Z -> Quit -> list HTTPResponse)
             (RewriteURLHost : list string -> string -> list string)
             urls config quit log,
        let urls' := effectiveURLs RewriteURLHost urls config in
        let config' := effectiveConfig config in
        Z.of_nat (length (received Quit getter urls' config' quit)) < 2 ^ 62 ->
        Z.of_nat (length (received Quit getter (linkedUrlsOf getter urls' config' quit)
                            (linksConfigOf config') quit)) < 2 ^ 62 ->
        exists stats err log',
          AsyncCrawl Quit getter RewriteURLHost urls config quit log
          = Some ((stats, err), log')
          /\ Total stats = sumCounts (StatusCodes stats)).
Proof.
  split; [exact statsInv_fresh|]. split; [|split].
  - intros r acc Hinv Hlt.
    pose proof (populate_inv r acc Hinv Hlt) as Hinv'.
    assert (Ht : Total (populateCrawlStats r acc).1 = Total acc.1 + 1).
    { rewrite populate_total. apply add_exact.
      destruct Hinv as (Hnn & Hs & _).
      pose proof (mget_le_sumCounts _ 0 Hnn).
      unfold in_range, min_int, max_int in *. lia. }
    split; [done|split; [done|split]].
    + rewrite populate_codes. f_equal. apply add_exact.
      destruct Hinv as (Hnn & Hs & _).
      pose proof (mget_le_sumCounts _ (StatusCode r) Hnn).
      unfold in_range, min_int, max_int in *. lia.
    + destruct Hinv as (_ & Hs & _), Hinv' as (_ & Hs' & _). lia.
  - intros a b s Ha Hb Hle Hm. split; [exact (merge_inv a b s Ha Hb Hle Hm)|].
    apply merge_total_codes in Hm as [Ht Hc]. rewrite Ht, Hc.
    destruct Ha as (Hna & Hsa & _), Hb as (Hnb & Hsb & _).
    pose proof (mget_le_sumCounts _ 0 Hna). pose proof (mget_le_sumCounts _ 0 Hnb).
    split.
    + apply add_exact. unfold in_range, min_int, max_int in *. lia.
    + intros k. rewrite mget_mergedCodes.
      pose proof (mget_le_sumCounts _ k Hna). pose proof (mget_le_sumCounts _ k Hnb).
      apply wrap_id. unfold in_range, min_int, max_int in *. lia.
  - intros Quit getter RW urls config quit log urls' config' Hb1 Hb2.
    destruct (AsyncCrawl_run getter RW urls config quit log) as (log' & _ & Hrun).
    eexists _, _, log'. split; [exact Hrun|].
    pose proof (phasesResult_inv getter urls' config' quit Hb1 Hb2) as (_ & Hs & _).
    fold urls' config'. destruct (decide _); simpl; exact Hs.
Qed.

Lemma total_is_sum_of_histogram_witness :
  exists stats err log',
    AsyncCrawl unit okGetter idRewrite ["a"; "b"; "c"]%string noLinksConfig tt []
    = Some ((stats, err), log')
    /\ Total stats = sumCounts (StatusCodes stats).
Proof.
  apply (proj2 (proj2 (proj2 total_is_sum_of_histogram))); vm_compute; reflexivity.
Defined.

(** Five URLs answered by 200 after 10, 20, 30, 40 and 50ms, no link
    followed. *)
Example scenario_five_ok :
  AsyncCrawl unit
    (fun _ _ _ _ =>
       [mkHTTPResponse "u1" 200 (Some 10000000) None [];
        mkHTTPResponse "u2" 200 (Some 20000000) None [];
        mkHTTPResponse "u3" 200 (Some 30000000) None [];
        mkHTTPResponse "u4" 200 (Some 40000000) None [];
        mkHTTPResponse "u5" 200 (Some 50000000) None []])
    idRewrite ["u1"; "u2"; "u3"; "u4"; "u5"]%string noLinksConfig tt []
  = Some ((mkCrawlStats 5 {[ 200 := 5 ]} 30000000 50000000 [], None),
          [mkGetCall ["u1"; "u2"; "u3"; "u4"; "u5"]%string plainHTTP 2]).
Proof. vm_compute. reflexivity. Qed.

(** Two URLs, one answered by 404 and one by 200 after 15ms. *)
Example scenario_mixed :
  AsyncCrawl unit
    (fun _ _ _ _ =>
       [mkHTTPResponse "u1" 404 (Some 3000000) None [];
        mkHTTPResponse "u2" 200 (Some 15000000) None []])
    idRewrite ["u1"; "u2"]%string noLinksConfig tt []
  = Some ((mkCrawlStats 2 {[ 200 := 1; 404 := 1 ]} 15000000 15000000
             [mkCrawlResult "u1" 404 3000000 []],
           Some errNon200),
          [mkGetCall ["u1"; "u2"]%string plainHTTP 2]).
Proof. vm_compute. reflexivity. Qed.

(* ===================================================================== *)
(** ** The outcome of [AsyncCrawl] *)

Lemma empty_seed_total {Quit : Type}
    (getter : list string -> HTTPConfig -> Z -> Quit -> list HTTPResponse)
    (RW : list string -> string -> list string) config quit :
  CLinks config = mkLinksConfig false false false ->
  (forall h, RW [] h = []) -> (forall c n q, getter [] c n q = []) ->
  Total (phasesResult getter (effectiveURLs RW [] config)
           (effectiveConfig config) quit).1 = 0.
Proof.
  intros Hl Hrw Hget.
  assert (Hu : effectiveURLs RW [] config = [])
    by (unfold effectiveURLs; destruct (decide _); [apply Hrw|reflexivity]).
  rewrite Hu. unfold phasesResult, effectiveConfig. rewrite Hl. simpl.
  unfold phaseAcc, received. rewrite Hget. reflexivity.
Qed.

(** C4: [AsyncCrawl] always returns; the statistics it returns are those of
    the crawl with the average set, whatever the error; the error is
    "no URL crawled" when the total is 0, otherwise "some URLs had a
    different status code than 200" when the total differs from the
    200-count, and otherwise there is none.  An empty seed list with the
    three link flags off, given to a getter that emits nothing for no URL,
    yields the total 0 and the first error. *)
Theorem AsyncCrawl_outcome :
  forall (Quit : Type)
         (getter : list string -> HTTPConfig -> Z -> Quit -> list HTTPResponse)
         (RewriteURLHost : list string -> string -> list string)
         urls config quit log,
  exists stats err log',
    AsyncCrawl Quit getter RewriteURLHost urls config quit log
    = Some ((stats, err), log')
    /\ (exists merged sum,
          crawlPhases Quit getter (effectiveURLs RewriteURLHost urls config)
            (effectiveConfig config) quit log = Some ((merged, sum), log')
          /\ setAverage merged sum = Some stats)
    /\ (Total stats = 0 -> err = Some errNoURL)
    /\ (Total stats ≠ 0 -> Total stats ≠ mget (StatusCodes stats) 200 ->
        err = Some errNon200)
    /\ (Total stats ≠ 0 -> Total stats = mget (StatusCodes stats) 200 ->
        err = None)
    /\ (urls = [] ->
        CLinks config = mkLinksConfig false false false ->
        (forall h, RewriteURLHost [] h = []) ->
        (forall c n q, getter [] c n q = []) ->
        Total stats = 0 /\ err = Some errNoURL).
Proof.
  intros Quit getter RW urls config quit log.
  destruct (AsyncCrawl_run getter RW urls config quit log) as (log' & Hph & Hrun).
  eexists _, _, log'. split; [exact Hrun|].
  set (merged := (phasesResult getter _ _ quit).1) in *.
  set (sum := (phasesResult getter _ _ quit).2) in *.
  set (final := if decide (mget (StatusCodes merged) 200 > 0) then _ else _).
  assert (Hemp : urls = [] ->
                 CLinks config = mkLinksConfig false false false ->
                 (forall h, RW [] h = []) -> (forall c n q, getter [] c n q = []) ->
                 Total final = 0).
  { intros Hu Hl Hrw Hget.
    assert (Hm : Total merged = 0)
      by (subst merged urls; now apply empty_seed_total).
    subst final. destruct (decide _); simpl; exact Hm. }
  split; [|split; [|split; [|split]]].
  - exists merged, sum. split; [exact Hph|]. apply setAverage_returns.
  - intros H0. unfold classify. now destruct (decide (Total final = 0)).
  - intros H0 Hne. unfold classify.
    destruct (decide (Total final = 0)); [done|].
    now destruct (decide (Total final ≠ _)).
  - intros H0 Heq. unfold classify.
    destruct (decide (Total final = 0)); [done|].
    now destruct (decide (Total final ≠ _)).
  - intros Hu Hl Hrw Hget. pose proof (Hemp Hu Hl Hrw Hget) as H0.
    split; [exact H0|]. unfold classify. now destruct (decide (Total final = 0)).
Qed.

Lemma AsyncCrawl_outcome_witness :
  exists stats err log',
    AsyncCrawl unit okGetter idRewrite [] noLinksConfig tt [] = Some ((stats, err), log')
    /\ Total stats = 0 /\ err = Some errNoURL.
Proof.
  destruct (AsyncCrawl_outcome unit okGetter idRewrite [] noLinksConfig tt [])
    as (stats & err & log' & Hrun & _ & _ & _ & _ & Hempty).
  exists stats, err, log'. split; [exact Hrun|].
  apply Hempty; reflexivity.
Defined.

(* ===================================================================== *)
(** ** A crawl that follows no link *)

Lemma effectiveConfig_no_links config :
  CLinks config = mkLinksConfig false false false ->
  ParseLinks (HTTP (effectiveConfig config)) = false.
Proof. intros H. unfold effectiveConfig. now rewrite H. Qed.

(** C9 (amended): when the three link flags are off, the getter is called
    once, for phase 1 and without link parsing ([crawlPageLinks] and the
    merge are not run), and the statistics that [AsyncCrawl] returns are
    those of phase 1 in the total, the histogram, the maximum and the list
    of reports; the average, which phase 1 leaves at zero, is the
    200-latency sum of phase 1 divided by its 200-count when that count is
    positive. *)
Theorem no_links_single_phase :
  forall (Quit : Type)
         (getter : list string -> HTTPConfig -> Z -> Quit -> list HTTPResponse)
         (RewriteURLHost : list string -> string -> list string)
         urls config quit log,
    CLinks config = mkLinksConfig false false false ->
    let urls' := effectiveURLs RewriteURLHost urls config in
    let config' := effectiveConfig config in
    let log' := log ++ [mkGetCall urls' (withParseLinks false (HTTP config))
                          (Throttle config')] in
    exists results stats1 sum1 stats err,
      crawlUrls Quit getter urls' config' quit log
      = Some ((results, stats1, sum1), log')
      /\ AsyncCrawl Quit getter RewriteURLHost urls config quit log
         = Some ((stats, err), log')
      /\ Total stats = Total stats1
      /\ StatusCodes stats = StatusCodes stats1
      /\ Max200Time stats = Max200Time stats1
      /\ Non200Urls stats = Non200Urls stats1
      /\ Average200Time stats1 = 0
      /\ Average200Time stats =
         if decide (mget (StatusCodes stats1) 200 > 0)
         then wrap (Z.quot sum1 (mget (StatusCodes stats1) 200)) else 0.
Proof.
  intros Quit getter RW urls config quit log Hl urls' config' log'.
  pose proof (effectiveConfig_no_links config Hl) as Hparse. fold config' in Hparse.
  destruct (AsyncCrawl_run getter RW urls config quit log) as (l & Hph & Hrun).
  fold urls' config' in Hph, Hrun.
  rewrite crawlPhases_run, Hparse in Hph.
  unfold phasesResult in Hph, Hrun. rewrite Hparse in Hph, Hrun.
  assert (Hlog : l = log').
  { apply (f_equal (fun o => snd <$> o)) in Hph. simpl in Hph.
    injection Hph as <-. unfold log', config', effectiveConfig. rewrite Hl.
    reflexivity. }
  subst l.
  pose proof (phaseAcc_average getter urls' config' quit) as Havg.
  exists (indexByURL (received Quit getter urls' config' quit)),
    (phaseAcc getter urls' config' quit).1, (phaseAcc getter urls' config' quit).2.
  eexists _, _. split; [|split; [exact Hrun|]].
  - rewrite crawlUrls_run. do 2 f_equal.
    unfold log', config', effectiveConfig. rewrite Hl. reflexivity.
  - destruct (decide (_ > 0)); simpl; repeat split; done.
Qed.

Lemma no_links_single_phase_witness :
  exists results stats1 sum1 stats err,
    crawlUrls unit okGetter ["a"; "b"]%string (effectiveConfig noLinksConfig) tt []
    = Some ((results, stats1, sum1), [mkGetCall ["a"; "b"]%string plainHTTP 2])
    /\ AsyncCrawl unit okGetter idRewrite ["a"; "b"]%string noLinksConfig tt []
       = Some ((stats, err), [mkGetCall ["a"; "b"]%string plainHTTP 2])
    /\ Total stats = Total stats1
    /\ Average200Time stats1 = 0
    /\ Average200Time stats = 10.
Proof.
  destruct (no_links_single_phase unit okGetter idRewrite ["a"; "b"]%string
              noLinksConfig tt [] eq_refl)
    as (results & stats1 & sum1 & stats & err & H1 & H2 & Ht & Hc & _ & _ & H0 & Ha).
  exists results, stats1, sum1, stats, err.
  split; [exact H1|split; [exact H2|split; [exact Ht|split; [exact H0|]]]].
  rewrite Ha. vm_compute in H1. injection H1 as _ <- <-. reflexivity.
Defined.

(** C9, as stated, fails: with one URL answered by a 200 after 10ns and no
    link followed, phase 1 leaves the average at zero and [AsyncCrawl]
    returns the average 10ns. *)
Lemma no_links_average_differs :
  exists results stats1 sum1 stats err log',
    CLinks noLinksConfig = mkLinksConfig false false false
    /\ crawlUrls unit okGetter ["a"]%string (effectiveConfig noLinksConfig) tt []
       = Some ((results, stats1, sum1), log')
    /\ AsyncCrawl unit okGetter idRewrite ["a"]%string noLinksConfig tt []
       = Some ((stats, err), log')
    /\ Average200Time stats1 = 0
    /\ Average200Time stats = 10
    /\ stats ≠ stats1.
Proof.
  eexists _, _, _, _, _, _. split; [reflexivity|].
  split; [vm_compute; reflexivity|]. split; [vm_compute; reflexivity|].
  split; [reflexivity|]. split; [reflexivity|]. discriminate.
Qed.

(* ===================================================================== *)
(** ** The average *)

Lemma populate_sum r acc :
  (populateCrawlStats r acc).2 =
  if decide (StatusCode r = 200) then add acc.2 (default 0 (ServerTime r)) else acc.2.
Proof.
  destruct acc as [s t]. unfold populateCrawlStats.
  destruct (decide _); simpl; [|reflexivity]. now destruct (ServerTime r).
Qed.

(** The sum that the record steps keep beside the accumulator. *)
Lemma recordAll_sum rs acc :
  (recordAll rs acc).2 = foldl add acc.2 (ok200Times rs).
Proof.
  induction rs as [|r rs IH] using rev_ind; [reflexivity|].
  rewrite recordAll_snoc, populate_sum, IH. unfold ok200Times.
  rewrite list.filter_app, fmap_app, foldl_app.
  rewrite list.filter_cons, list.filter_nil.
  destruct (decide (StatusCode r = 200)); reflexivity.
Qed.

(** C10: no record step writes [Average200Time]: it is zero after any
    sequence of [populateCrawlStats] calls on a fresh accumulator, the sum of
    the 200-latencies being kept beside it; the statistics of the two phases
    still have a zero average after the merge, and [AsyncCrawl] sets the
    average it returns in its last block: the sum of the 200-latencies of
    the phases divided by the merged 200-count, when that count is
    positive. *)
Theorem average_set_at_finalization :
  (forall r acc,
     Average200Time (populateCrawlStats r acc).1 = Average200Time acc.1)
  /\ (forall rs,
        Average200Time (recordAll rs freshAcc).1 = 0
        /\ (recordAll rs freshAcc).2 = foldl add 0 (ok200Times rs))
  /\ (forall (Quit : Type)
             (getter : list string -> HTTPConfig -> Z -> Quit -> list HTTPResponse)
             (RewriteURLHost : list string -> string -> list string)
             urls config quit log,
        let urls' := effectiveURLs RewriteURLHost urls config in
        let config' := effectiveConfig config in
        let sum1 := (phaseAcc getter urls' config' quit).2 in
        let sum2 := (phaseAcc getter (linkedUrlsOf getter urls' config' quit)
                       (linksConfigOf config') quit).2 in
        exists merged sum stats err log',
          crawlPhases Quit getter urls' config' quit log = Some ((merged, sum), log')
          /\ Average200Time merged = 0
          /\ sum = (if ParseLinks (HTTP config') then add sum1 sum2 else sum1)
          /\ AsyncCrawl Quit getter RewriteURLHost urls config quit log
             = Some ((stats, err), log')
          /\ mget (StatusCodes stats) 200 = mget (StatusCodes merged) 200
          /\ Average200Time stats =
             if decide (mget (StatusCodes merged) 200 > 0)
             then wrap (Z.quot sum (mget (StatusCodes merged) 200)) else 0).
Proof.
  split; [exact populate_average|]. split.
  - intros rs. split; [apply recordAll_average | apply recordAll_sum].
  - intros Quit getter RW urls config quit log urls' config' sum1 sum2.
    destruct (AsyncCrawl_run getter RW urls config quit log) as (log' & Hph & Hrun).
    fold urls' config' in Hph, Hrun.
    pose proof (phasesResult_average getter urls' config' quit) as Havg.
    eexists _, _, _, _, log'. split; [exact Hph|]. split; [exact Havg|].
    split; [|split; [exact Hrun|]].
    + unfold phasesResult. now destruct (ParseLinks (HTTP config')).
    + destruct (decide (_ > 0)); simpl; split; done.
Qed.

(* ===================================================================== *)
(** ** The frontier of phase 2 *)

Lemma appendRefs_app entry refs1 refs2 :
  appendRefs (appendRefs entry refs1) refs2 = appendRefs entry (refs1 ++ refs2).
Proof.
  destruct refs1 as [|x refs1]; [reflexivity|].
  destruct refs2 as [|y refs2]; simpl.
  - now rewrite app_nil_r.
  - now rewrite <- app_assoc.
Qed.

Lemma visitLink_lookup src policy r set link t :
  visitLink src policy r set link !! t =
  appendRefs (set !! t)
    (if keepLink src policy link && bool_decide (TargetURL link = t)
     then [URL r] else []).
Proof.
  unfold visitLink, keepLink.
  destruct (skipLink policy link); simpl; [reflexivity|].
  destruct (decide (is_Some (src !! TargetURL link))) as [Hs|Hn].
  - rewrite bool_decide_eq_false_2; [reflexivity|].
    intros E. rewrite E in Hs. now destruct Hs.
  - rewrite bool_decide_eq_true_2 by (now apply eq_None_not_Some). simpl.
    destruct (decide (TargetURL link = t)) as [<-|Hne].
    + rewrite bool_decide_eq_true_2 by done. now rewrite lookup_insert_eq.
    + rewrite bool_decide_eq_false_2 by done. now rewrite lookup_insert_ne.
Qed.

Lemma visitLinks_lookup src policy r links set t :
  foldl (visitLink src policy r) set links !! t =
  appendRefs (set !! t)
    (flat_map (fun link =>
                 if keepLink src policy link && bool_decide (TargetURL link = t)
                 then [URL r] else []) links).
Proof.
  revert set. induction links as [|link links IH]; intros set; [reflexivity|].
  simpl. rewrite IH, visitLink_lookup. apply appendRefs_app.
Qed.

Lemma visitResults_lookup src policy visited set t :
  foldl (fun set r => foldl (visitLink src policy r) set (Links r)) set visited !! t
  = appendRefs (set !! t) (referrers src policy visited t).
Proof.
  revert set. induction visited as [|r visited IH]; intros set; [reflexivity|].
  simpl. rewrite IH, visitLinks_lookup. apply appendRefs_app.
Qed.

Lemma foldr_foldl_reverse {A B} (f : A -> B -> B) (b : B) (l : list A) :
  foldr f b l = foldl (fun acc x => f x acc) b (reverse l).
Proof.
  induction l as [|x l IH]; [reflexivity|].
  rewrite reverse_cons, foldl_app. simpl. now rewrite IH.
Qed.

Lemma collectLinks_foldl src policy :
  collectLinks src policy =
  foldl (fun set r => foldl (visitLink src policy r) set (Links r)) ∅ (visitOrder src).
Proof.
  unfold collectLinks, visitOrder.
  rewrite map_fold_foldr, foldr_foldl_reverse, <- fmap_reverse.
  generalize (reverse (map_to_list src)) (∅ : gmap string (list string)).
  intros l. induction l as [|[k r] l IH]; intros set; [reflexivity|].
  simpl. apply IH.
Qed.

(** The entry of [linkedUrlsSet] for a target: absent when no kept link
    refers to it, and otherwise the URLs of the referring results. *)
Lemma collectLinks_lookup src policy t :
  collectLinks src policy !! t =
  match referrers src policy (visitOrder src) t with
  | [] => None
  | refs => Some refs
  end.
Proof.
  rewrite collectLinks_foldl, visitResults_lookup, lookup_empty.
  now destruct (referrers _ _ _ _).
Qed.

Lemma visitOrder_elem src r :
  r ∈ visitOrder src <-> exists k, src !! k = Some r.
Proof.
  unfold visitOrder. rewrite elem_of_reverse, list_elem_of_fmap. split.
  - intros ([k r'] & -> & Hin). exists k. now apply elem_of_map_to_list.
  - intros [k Hk]. exists (k, r). split; [reflexivity|].
    now apply elem_of_map_to_list.
Qed.

Lemma referrers_elem src policy visited t u :
  In u (referrers src policy visited t) <->
  exists r link, In r visited /\ In link (Links r) /\ u = URL r
                 /\ keepLink src policy link = true /\ TargetURL link = t.
Proof.
  unfold referrers, referrersIn. rewrite in_flat_map. split.
  - intros (r & Hr & Hin). apply in_flat_map in Hin as (link & Hl & Hu).
    destruct (keepLink src policy link) eqn:Hk; [|destruct Hu].
    destruct (bool_decide (TargetURL link = t)) eqn:Ht; [|destruct Hu].
    apply bool_decide_eq_true in Ht. destruct Hu as [<-|[]].
    now exists r, link.
  - intros (r & link & Hr & Hl & -> & Hk & Ht). exists r. split; [done|].
    apply in_flat_map. exists link. split; [done|].
    rewrite Hk, bool_decide_eq_true_2 by done. now left.
Qed.

Lemma frontier_keys (set : gmap string (list string)) :
  frontier set = reverse (map_to_list set).*1.
Proof.
  unfold frontier. rewrite map_fold_foldr.
  induction (map_to_list set) as [|[k v] l IH]; [reflexivity|].
  simpl. rewrite IH, reverse_cons. reflexivity.
Qed.

Lemma frontier_elem (set : gmap string (list string)) t :
  t ∈ frontier set <-> is_Some (set !! t).
Proof.
  rewrite frontier_keys, elem_of_reverse, list_elem_of_fmap. split.
  - intros ([k v] & -> & Hin). exists v. now apply elem_of_map_to_list.
  - intros [v Hv]. exists (t, v). split; [reflexivity|].
    now apply elem_of_map_to_list.
Qed.

Lemma frontier_NoDup (set : gmap string (list string)) : NoDup (frontier set).
Proof.
  rewrite frontier_keys, reverse_Permutation. apply NoDup_fst_map_to_list.
Qed.

Lemma skipLink_false policy link :
  skipLink policy link = false <->
  ~ (CrawlExternalLinks policy = false /\ IsExternal link = true)
  /\ ~ (CrawlHyperlinks policy = false /\ LinkTy link = Hyperlink)
  /\ ~ (CrawlImages policy = false /\ LinkTy link = Image).
Proof.
  unfold skipLink.
  destruct (CrawlExternalLinks policy), (CrawlHyperlinks policy),
    (CrawlImages policy), (IsExternal link), (LinkTy link); simpl;
    (split; [intros H; try discriminate; repeat split; intros [? ?]; discriminate
            |intros (H1 & H2 & H3); try reflexivity;
             first [destruct H1; now split | destruct H2; now split
                   | destruct H3; now split]]).
Qed.

Lemma keepLink_true src policy link :
  keepLink src policy link = true <->
  skipLink policy link = false /\ src !! TargetURL link = None.
Proof.
  unfold keepLink. rewrite andb_true_iff, negb_true_iff, bool_decide_eq_true.
  reflexivity.
Qed.

(** C6: a URL is in the frontier of phase 2 only if it is the target of a
    link of a phase-1 result that passes the policy filter, and never if it
    is a key of the phase-1 results; every such target is in the frontier,
    once; and [linkedUrlsSet] maps it to the URLs of the results that refer
    to it through such a link, in the order of the visit of the results. *)
Theorem frontier_filtered_and_fresh :
  forall (src : gmap string HTTPResponse) (policy : CrawlPageLinksConfig),
    let set := collectLinks src policy in
    (forall t, t ∈ frontier set ->
       src !! t = None
       /\ exists k r link,
            src !! k = Some r /\ link ∈ Links r /\ TargetURL link = t
            /\ ~ (CrawlExternalLinks policy = false /\ IsExternal link = true)
            /\ ~ (CrawlHyperlinks policy = false /\ LinkTy link = Hyperlink)
            /\ ~ (CrawlImages policy = false /\ LinkTy link = Image))
    /\ (forall t, is_Some (src !! t) -> t ∉ frontier set)
    /\ (forall k r link,
          src !! k = Some r -> link ∈ Links r ->
          skipLink policy link = false -> src !! TargetURL link = None ->
          TargetURL link ∈ frontier set)
    /\ NoDup (frontier set)
    /\ visitOrder src ≡ₚ (map_to_list src).*2
    /\ (forall t, t ∈ frontier set ->
          set !! t = Some (referrers src policy (visitOrder src) t))
    /\ (forall t u, u ∈ referrers src policy (visitOrder src) t <->
          exists k r link,
            src !! k = Some r /\ link ∈ Links r /\ u = URL r
            /\ skipLink policy link = false /\ src !! TargetURL link = None
            /\ TargetURL link = t).
Proof.
  intros src policy set.
  assert (Hrefs : forall t u, u ∈ referrers src policy (visitOrder src) t <->
            exists k r link,
              src !! k = Some r /\ link ∈ Links r /\ u = URL r
              /\ skipLink policy link = false /\ src !! TargetURL link = None
              /\ TargetURL link = t).
  { intros t u. rewrite list_elem_of_In, referrers_elem. split.
    - intros (r & link & Hr & Hl & -> & Hk & Ht).
      apply list_elem_of_In, visitOrder_elem in Hr as [k Hk'].
      apply keepLink_true in Hk as [Hs Hn].
      exists k, r, link. rewrite list_elem_of_In. done.
    - intros (k & r & link & Hk & Hl & -> & Hs & Hn & Ht).
      exists r, link. rewrite <- !list_elem_of_In, visitOrder_elem, keepLink_true.
      eauto 10. }
  assert (Hin : forall t, t ∈ frontier set ->
            exists refs u, set !! t = Some refs
              /\ refs = referrers src policy (visitOrder src) t /\ u ∈ refs).
  { intros t Ht. apply frontier_elem in Ht as [refs Hrefs'].
    unfold set in *. rewrite collectLinks_lookup in Hrefs' |- *.
    destruct (referrers src policy (visitOrder src) t) as [|u refs'] eqn:E;
      [discriminate|].
    exists (u :: refs'), u. split; [reflexivity|]. split; [reflexivity|].
    apply list_elem_of_here. }
  split; [|split; [|split; [|split; [|split; [|split]]]]].
  - intros t Ht. destruct (Hin t Ht) as (refs & u & _ & -> & Hu).
    apply Hrefs in Hu as (k & r & link & Hk & Hl & _ & Hs & Hn & <-).
    split; [exact Hn|]. apply skipLink_false in Hs as (H1 & H2 & H3).
    exists k, r, link. done.
  - intros t [r Hr] Ht. destruct (Hin t Ht) as (refs & u & _ & -> & Hu).
    apply Hrefs in Hu as (k & r' & link & _ & _ & _ & _ & Hn & <-). congruence.
  - intros k r link Hk Hl Hs Hn. apply frontier_elem. unfold set.
    rewrite collectLinks_lookup.
    assert (Hu : URL r ∈ referrers src policy (visitOrder src) (TargetURL link))
      by (apply Hrefs; eauto 10).
    destruct (referrers _ _ _ _); [|eauto]. now apply elem_of_nil in Hu.
  - apply frontier_NoDup.
  - unfold visitOrder. apply reverse_Permutation.
  - intros t Ht. destruct (Hin t Ht) as (refs & u & Hl & -> & _). exact Hl.
  - exact Hrefs.
Qed.

Example frontier_samplePages :
  frontier (collectLinks samplePages hyperlinksOnly) = ["x"]%string.
Proof. vm_compute. reflexivity. Qed.

Lemma frontier_filtered_and_fresh_witness :
  samplePages !! "x"%string = None
  /\ collectLinks samplePages hyperlinksOnly !! "x"%string
     = Some (referrers samplePages hyperlinksOnly (visitOrder samplePages) "x"%string).
Proof.
  assert (Hin : "x"%string ∈ frontier (collectLinks samplePages hyperlinksOnly)).
  { apply list_elem_of_In. vm_compute. left. reflexivity. }
  destruct (frontier_filtered_and_fresh samplePages hyperlinksOnly)
    as (H1 & _ & _ & _ & _ & H6 & _).
  split; [exact (proj1 (H1 _ Hin)) | exact (H6 _ Hin)].
Defined.


(* ===================================================================== *)
(** ** The fetcher *)

(** C5 (amended): [HTTPGet] is total and returns the URL it was given.  When
    the request cannot be created, or [client.Do] returns an error and no
    response, the status code is 0 and the error is set.  When [client.Do]
    returns a response and no error, whatever the status, the status code is
    that of the response and no error is set.  When [client.Do] returns a
    response together with an error (the redirect policy failed), the status
    code is that of the response and the error is set. *)
Theorem HTTPGet_outcome :
  forall (Client Body ParsedURL : Type)
         (createRequestErr : string -> option string)
         (clientDo : Client -> string -> HTTPConfig -> DoOutcome Body)
         (totalTime : Client -> string -> Z)
         (urlParse : string -> option ParsedURL)
         (ExtractLinks : Body -> ParsedURL -> list Link * option string)
         (client : Client) (urlStr : string) (config : HTTPConfig),
    let r := HTTPGet Client Body ParsedURL createRequestErr clientDo totalTime
               urlParse ExtractLinks client urlStr config in
    URL r = urlStr
    /\ (forall err, createRequestErr urlStr = Some err ->
          StatusCode r = 0 /\ Err r = Some err)
    /\ (createRequestErr urlStr = None ->
        match clientDo client urlStr config with
        | DoError err => StatusCode r = 0 /\ Err r = Some err
        | DoResponse resp => StatusCode r = raw_StatusCode resp /\ Err r = None
        | DoRedirectError resp err =>
            StatusCode r = raw_StatusCode resp /\ Err r = Some err
        end).
Proof.
  intros Client Body ParsedURL cre cdo tot up ex client urlStr config r.
  subst r. unfold HTTPGet. split; [|split].
  - destruct (cre urlStr); [reflexivity|]. now destruct (cdo client urlStr config).
  - intros err ->. now split.
  - intros ->. now destruct (cdo client urlStr config).
Qed.

Lemma HTTPGet_outcome_witness :
  let r := HTTPGet unit unit unit (fun _ => None) notFound (fun _ _ => 7)
             (fun _ => None) (fun _ _ => ([], None)) tt "http://a/x" plainHTTP in
  StatusCode r = 404 /\ Err r = None.
Proof.
  exact (proj2 (proj2 (HTTPGet_outcome unit unit unit (fun _ => None) notFound
                         (fun _ _ => 7) (fun _ => None) (fun _ _ => ([], None))
                         tt "http://a/x" plainHTTP)) eq_refl).
Defined.

(** C5, as stated, fails: on a redirect loop a response was received, and
    [HTTPGet] returns its status code with the error set. *)
Lemma HTTPGet_redirect_loop :
  let r := HTTPGet unit unit unit (fun _ => None) redirectLoop (fun _ _ => 7)
             (fun _ => None) (fun _ _ => ([], None)) tt "http://a/loop" plainHTTP in
  redirectLoop tt "http://a/loop" plainHTTP
  = DoRedirectError (mkRawResponse 302 tt) "stopped after 10 redirects"
  /\ StatusCode r = 302
  /\ Err r = Some "stopped after 10 redirects"%string
  /\ ~ (StatusCode r = 302 /\ Err r = None)
  /\ ~ (StatusCode r = 0 /\ Err r ≠ None).
Proof.
  simpl. repeat split; intros [H1 H2]; discriminate.
Qed.

(* ===================================================================== *)
(** ** The worker pool *)

Module WorkerPoolFacts.

Import WorkerPool.

Lemma workers_split (ws : list Worker) i w :
  ws !! i = Some w ->
  exists ws1 ws2,
    ws = ws1 ++ w :: ws2
    /\ (forall w', <[i := w']> ws = ws1 ++ w' :: ws2)
    /\ delete i ws = ws1 ++ ws2.
Proof.
  intros H. exists (take i ws), (drop (S i) ws). split; [|split].
  - symmetry. now apply take_drop_middle.
  - intros w'. apply insert_take_drop. now apply lookup_lt_Some in H.
  - apply delete_take_drop.
Qed.

Section Facts.

Variable httpGet : nat -> string -> HTTPConfig -> HTTPResponse.
Variable config : HTTPConfig.
Variable urls : list string.
Variable maxConcurrent : Z.

#[local] Abbreviation next := (next httpGet config).
#[local] Abbreviation run := (run httpGet config).
#[local] Abbreviation reachable := (reachable httpGet config urls maxConcurrent).
#[local] Abbreviation poolInv := (poolInv httpGet config urls maxConcurrent).

Lemma init_inv s0 : init urls maxConcurrent = Some s0 -> poolInv s0.
Proof.
  unfold init. destruct (decide _); [discriminate|]. intros [= <-].
  unfold WorkerPool.poolInv; simpl. rewrite app_nil_r.
  split; [reflexivity|]. split; [reflexivity|]. split; [reflexivity|].
  split; [reflexivity|]. done.
Qed.

Ltac split_worker H :=
  let ws1 := fresh "ws1" in let ws2 := fresh "ws2" in
  let Hs := fresh "Hs" in let Hi := fresh "Hi" in let Hd := fresh "Hd" in
  apply workers_split in H as (ws1 & ws2 & Hs & Hi & Hd);
  try rewrite Hi; try rewrite Hd; rewrite Hs in *.

Ltac norm_lists :=
  repeat first
    [ rewrite !list.filter_app | rewrite !list.filter_cons | rewrite !fmap_app
    | rewrite !fmap_cons | rewrite !length_app | rewrite !length_cons ];
  simpl.

Lemma next_inv e s s' : poolInv s -> next e s = Some s' -> poolInv s'.
Proof.
  intros (Hwg & Hcl & Hst & Hrc & Hcz) Hnext.
  destruct s as [pend ready ws rc st n q m]; simpl in *.
  destruct e; simpl in Hnext.
  - (* QuitFires *)
    destruct q; [discriminate|]. injection Hnext as <-.
    unfold WorkerPool.poolInv; simpl. done.
  - (* Dispatch *)
    destruct m; try discriminate. destruct pend as [|u us]; [discriminate|].
    destruct ready as [|c cs]; [discriminate|]. injection Hnext as <-.
    unfold WorkerPool.poolInv; simpl. norm_lists.
    split; [rewrite Hwg; lia|]. split; [|split; [|split; [|done]]].
    + rewrite <- Hcl. simpl. solve_Permutation.
    + rewrite <- Hst. now rewrite <- app_assoc.
    + rewrite <- Hrc. unfold fetchedBy, fetched. simpl. solve_Permutation.
  - (* TakeQuit *)
    destruct m; try discriminate. destruct pend as [|u us]; [discriminate|].
    destruct q; [|discriminate]. injection Hnext as <-.
    unfold WorkerPool.poolInv; simpl. done.
  - (* LoopEnd *)
    destruct m; try discriminate. destruct pend; [|discriminate].
    injection Hnext as <-. unfold WorkerPool.poolInv; simpl. done.
  - (* Send *)
    destruct (ws !! i) as [[c u ph]|] eqn:Hw; [|discriminate].
    destruct ph; try discriminate. injection Hnext as <-.
    split_worker Hw. unfold WorkerPool.poolInv; simpl.
    revert Hwg Hcl Hrc Hcz. norm_lists. intros Hwg Hcl Hrc Hcz.
    split; [done|]. split; [done|]. split; [done|]. split.
    + rewrite <- Hrc. unfold fetchedBy at 3. simpl. solve_Permutation.
    + intros Hm. specialize (Hcz Hm). now destruct ws1.
  - (* Return *)
    destruct (ws !! i) as [[c u ph]|] eqn:Hw; [|discriminate].
    destruct ph; try discriminate. injection Hnext as <-.
    split_worker Hw. unfold WorkerPool.poolInv; simpl.
    revert Hwg Hcl Hrc Hcz. norm_lists. intros Hwg Hcl Hrc Hcz.
    split; [done|]. split; [|split; [done|split; [done|]]].
    + rewrite <- Hcl. solve_Permutation.
    + intros Hm. specialize (Hcz Hm). now destruct ws1.
  - (* Done *)
    destruct (ws !! i) as [[c u ph]|] eqn:Hw; [|discriminate].
    destruct ph; try discriminate. injection Hnext as <-.
    split_worker Hw. unfold WorkerPool.poolInv; simpl.
    revert Hwg Hcl Hrc Hcz. norm_lists. intros Hwg Hcl Hrc Hcz.
    split; [lia|]. split; [done|]. split; [done|]. split; [done|].
    intros Hm. specialize (Hcz Hm). now destruct ws1.
  - (* Close *)
    destruct m; try discriminate. destruct (decide (n = 0)) as [->|]; [|discriminate].
    injection Hnext as <-. unfold WorkerPool.poolInv; simpl.
    split; [done|]. split; [done|]. split; [done|]. split; [done|].
    intros _. destruct ws; [reflexivity|]. simpl in Hwg. lia.
Qed.

Lemma run_inv es s s' : poolInv s -> run es s = Some s' -> poolInv s'.
Proof.
  revert s. induction es as [|e es IH]; intros s Hinv; simpl.
  - now intros [= <-].
  - destruct (next e s) as [s1|] eqn:E; [|discriminate].
    apply IH. exact (next_inv e s s1 Hinv E).
Qed.

Lemma reachable_inv s : reachable s -> poolInv s.
Proof.
  intros (s0 & es & H0 & Hrun). eapply run_inv; [|exact Hrun]. now apply init_inv.
Qed.

Lemma run_app es1 es2 s :
  run (es1 ++ es2) s = match run es1 s with Some s1 => run es2 s1 | None => None end.
Proof.
  revert s. induction es1 as [|e es1 IH]; intros s; simpl; [reflexivity|].
  destruct (next e s); [apply IH|reflexivity].
Qed.

Lemma reachable_run es s s' : reachable s -> run es s = Some s' -> reachable s'.
Proof.
  intros (s0 & es0 & H0 & Hrun) Hes. exists s0, (es0 ++ es). split; [done|].
  now rewrite run_app, Hrun.
Qed.








(** Without a URL the channel is closed empty. *)
Lemma no_url_no_result s :
  urls = [] -> poolInv s -> resultChan s = [] /\ started s = [].
Proof.
  intros Hu (_ & _ & Hst & Hrc & _). rewrite Hu in Hst.
  apply app_eq_nil in Hst as [Hst _]. apply fmap_nil_inv in Hst.
  rewrite Hst in Hrc. simpl in Hrc. apply Permutation_nil_r in Hrc.
  apply app_eq_nil in Hrc as [Hrc _]. done.
Qed.

(** A client enters [clientsReady] only from a worker that has sent its
    result. *)
Lemma next_client_back e s s' c :
  next e s = Some s' -> c ∈ clientsReady s' -> c ∉ clientsReady s ->
  exists i u, e = Return i /\ workers s !! i = Some (mkWorker c u Sent).
Proof.
  intros Hnext Hin Hnin. destruct s as [pend ready ws rc st n q m]; simpl in *.
  destruct e; simpl in Hnext.
  - destruct q; [discriminate|]. injection Hnext as <-. done.
  - destruct m; try discriminate. destruct pend; [discriminate|].
    destruct ready as [|c0 cs]; [discriminate|]. injection Hnext as <-.
    simpl in Hin. destruct Hnin. now apply list_elem_of_further.
  - destruct m; try discriminate. destruct pend; [discriminate|].
    destruct q; [|discriminate]. injection Hnext as <-. done.
  - destruct m; try discriminate. destruct pend; [|discriminate].
    injection Hnext as <-. done.
  - destruct (ws !! i) as [[c0 u []]|]; try discriminate.
    injection Hnext as <-. done.
  - destruct (ws !! i) as [[c0 u []]|] eqn:Hw; try discriminate.
    injection Hnext as <-. simpl in Hin.
    apply elem_of_app in Hin as [Hin|Hin]; [done|].
    apply list_elem_of_singleton in Hin as ->. now exists i, u.
  - destruct (ws !! i) as [[c0 u []]|]; try discriminate.
    injection Hnext as <-. done.
  - destruct m; try discriminate. destruct (decide _); [|discriminate].
    injection Hnext as <-. done.
Qed.

End Facts.

End WorkerPoolFacts.

Import WorkerPool.

Lemma twoFetching_reachable :
  reachable okGet plainHTTP ["a"; "b"; "c"]%string 2 twoFetching.
Proof. eexists _, [Dispatch; Dispatch]. split; reflexivity. Qed.

Lemma filter_fetching_holds (ws : list Worker) :
  (length (filter (fun w => fetching w = true) ws)
   <= length (filter (fun w => holds w = true) ws))%nat.
Proof.
  induction ws as [|[c u ph] ws IH]; [reflexivity|].
  rewrite !list.filter_cons. destruct ph; simpl; lia.
Qed.

(** C8: with a limit of at least 1, in every state of [RunConcurrentGet]
    the fetches that run are at most [maxConcurrent]; the clients are those
    created at the start, each one either in [clientsReady] or held by
    exactly one worker; a worker whose fetch runs holds its client, taken
    from [clientsReady] when it was started; and a client comes back to
    [clientsReady] only from a worker that has completed its fetch and sent
    its result. *)
Theorem pool_bounded_concurrency :
  forall (httpGet : nat -> string -> HTTPConfig -> HTTPResponse)
         (config : HTTPConfig) (urls : list string) (maxConcurrent : Z) (s : Pool),
    1 <= maxConcurrent ->
    reachable httpGet config urls maxConcurrent s ->
    Z.of_nat (length (filter (fun w => fetching w = true) (workers s)))
      <= maxConcurrent
    /\ Z.of_nat (length (clientsReady s))
       + Z.of_nat (length (filter (fun w => holds w = true) (workers s)))
       = maxConcurrent
    /\ clientsReady s ++ (w_client <$> filter (fun w => holds w = true) (workers s))
       ≡ₚ seq 0 (Z.to_nat maxConcurrent)
    /\ NoDup (clientsReady s
              ++ (w_client <$> filter (fun w => holds w = true) (workers s)))
    /\ (forall w, w ∈ workers s -> fetching w = true ->
          holds w = true /\ w_client w ∉ clientsReady s)
    /\ (forall s', next httpGet config Dispatch s = Some s' ->
          exists client clients url,
            clientsReady s = client :: clients /\ clientsReady s' = clients
            /\ workers s' = workers s ++ [mkWorker client url Fetching])
    /\ (forall e s' client,
          next httpGet config e s = Some s' ->
          client ∈ clientsReady s' -> client ∉ clientsReady s ->
          exists i url, e = Return i
                        /\ workers s !! i = Some (mkWorker client url Sent)).
Proof.
  intros httpGet config urls N s HN Hreach.
  pose proof (WorkerPoolFacts.reachable_inv _ _ _ _ s Hreach)
    as (Hwg & Hcl & Hst & Hrc & Hcz).
  assert (Hlen : Z.of_nat (length (clientsReady s))
                 + Z.of_nat (length (filter (fun w => holds w = true) (workers s)))
                 = N).
  { apply Permutation_length in Hcl.
    rewrite length_app, length_fmap, length_seq in Hcl. lia. }
  assert (Hnd : NoDup (clientsReady s
                 ++ (w_client <$> filter (fun w => holds w = true) (workers s)))).
  { rewrite Hcl. apply NoDup_seq. }
  split; [|split; [exact Hlen|split; [exact Hcl|split; [exact Hnd|split; [|split]]]]].
  - pose proof (filter_fetching_holds (workers s)). lia.
  - intros [c u ph] Hw Hf. destruct ph; try discriminate. split; [reflexivity|].
    apply list.NoDup_app in Hnd as (_ & Hdisj & _). intros Hin.
    apply (Hdisj c Hin). apply list_elem_of_fmap.
    exists (mkWorker c u Fetching). split; [reflexivity|].
    now apply list_elem_of_filter.
  - intros s' Hnext. destruct s as [pend ready ws rc st n q m]; simpl in *.
    destruct m; try discriminate. destruct pend as [|u us]; [discriminate|].
    destruct ready as [|c cs]; [discriminate|]. injection Hnext as <-.
    now exists c, cs, u.
  - intros e s' c. apply WorkerPoolFacts.next_client_back.
Qed.

Lemma pool_bounded_concurrency_witness :
  Z.of_nat (length (filter (fun w => fetching w = true) (workers twoFetching))) <= 2
  /\ NoDup (clientsReady twoFetching
            ++ (w_client <$> filter (fun w => holds w = true) (workers twoFetching))).
Proof.
  destruct (pool_bounded_concurrency okGet plainHTTP ["a"; "b"; "c"]%string 2
              twoFetching ltac:(lia) twoFetching_reachable)
    as (H1 & _ & _ & H4 & _).
  split; [exact H1 | exact H4].
Defined.




(* ===================================================================== *)
(** ** More on [MergeCrawlStats] *)

Lemma merge_result a b s :
  MergeCrawlStats a b = Some s ->
  Total s = add (Total a) (Total b)
  /\ StatusCodes s = mergedCodes (StatusCodes a) (StatusCodes b)
  /\ Max200Time s = Z.max (Max200Time a) (Max200Time b)
  /\ Non200Urls s = Non200Urls a ++ Non200Urls b.
Proof.
  unfold MergeCrawlStats.
  assert (Hmax : (if decide (Max200Time a > Max200Time b)
                  then Max200Time a else Max200Time b)
                 = Z.max (Max200Time a) (Max200Time b))
    by (destruct (decide _); lia).
  rewrite Hmax.
  destruct (decide (_ ∨ _)); [destruct (div _ _); simpl|]; intros [= <-]; done.
Qed.

Lemma mergedCodes_assoc (a b c : gmap Z Z) :
  mergedCodes (mergedCodes a b) c = mergedCodes a (mergedCodes b c).
Proof.
  apply map_eq. intros k. rewrite !mergedCodes_lookup.
  destruct (a !! k) as [x|], (b !! k) as [y|], (c !! k) as [z|]; try reflexivity;
    f_equal; rewrite ?wrap_add_l, ?wrap_add_r, ?(wrap_id (wrap _))
      by apply wrap_in_range; try reflexivity.
  f_equal. lia.
Qed.

Lemma mergedCodes_dom (a b : gmap Z Z) :
  dom (mergedCodes a b) = dom a ∪ dom b.
Proof.
  apply set_eq. intros k.
  rewrite elem_of_union, !elem_of_dom, mergedCodes_lookup.
  destruct (a !! k), (b !! k); split; intros H;
    try (destruct H as [H|H]); try (now destruct H); eauto.
Qed.

(** X1: [MergeCrawlStats] is associative on the total, the maximum, the
    histogram and the list of reports: whenever the four merges return, both
    groupings give the same values for them. *)
Theorem merge_associative :
  forall a b c ab bc l r,
    MergeCrawlStats a b = Some ab -> MergeCrawlStats ab c = Some l ->
    MergeCrawlStats b c = Some bc -> MergeCrawlStats a bc = Some r ->
    Total l = Total r /\ Max200Time l = Max200Time r
    /\ StatusCodes l = StatusCodes r /\ Non200Urls l = Non200Urls r.
Proof.
  intros a b c ab bc l r Hab Hl Hbc Hr.
  apply merge_result in Hab as (Tab & Cab & Mab & Nab).
  apply merge_result in Hl as (Tl & Cl & Ml & Nl).
  apply merge_result in Hbc as (Tbc & Cbc & Mbc & Nbc).
  apply merge_result in Hr as (Tr & Cr & Mr & Nr).
  rewrite Tl, Tr, Ml, Mr, Cl, Cr, Nl, Nr, Tab, Tbc, Mab, Mbc, Cab, Cbc, Nab, Nbc.
  split; [|split; [|split]].
  - unfold add. rewrite wrap_add_l, wrap_add_r. f_equal. lia.
  - lia.
  - apply mergedCodes_assoc.
  - now rewrite app_assoc.
Qed.

Lemma merge_associative_witness :
  exists l r,
    MergeCrawlStats (mkCrawlStats 4 {[ 200 := 2; 404 := 1; 500 := 1 ]} 0 20
                       [mkCrawlResult "p" 404 5 []; mkCrawlResult "q" 500 7 []])
      statsR = Some l
    /\ MergeCrawlStats statsP
         (mkCrawlStats 3 {[ 200 := 2; 500 := 1 ]} 0 30 [mkCrawlResult "q" 500 7 []])
       = Some r
    /\ Total l = Total r /\ StatusCodes l = StatusCodes r.
Proof.
  eexists _, _. split; [vm_compute; reflexivity|]. split; [vm_compute; reflexivity|].
  assert (H := merge_associative statsP statsQ statsR).
  edestruct H as (H1 & _ & H3 & _); [vm_compute; reflexivity ..|].
  split; [exact H1 | exact H3].
Defined.

(** X2: what a merge that returns holds: the totals added, the larger
    maximum, a histogram whose keys are those of either input and whose
    counts are added key by key, and the reports of the first input followed
    by those of the second; the additions are those of 64-bit integers. *)
Theorem merge_fields :
  forall a b s,
    MergeCrawlStats a b = Some s ->
    Total s = wrap (Total a + Total b)
    /\ Max200Time s = Z.max (Max200Time a) (Max200Time b)
    /\ dom (StatusCodes s) = dom (StatusCodes a) ∪ dom (StatusCodes b)
    /\ (forall k, mget (StatusCodes s) k
                  = wrap (mget (StatusCodes a) k + mget (StatusCodes b) k))
    /\ Non200Urls s = Non200Urls a ++ Non200Urls b.
Proof.
  intros a b s Hm. apply merge_result in Hm as (Ht & Hc & Hx & Hn).
  rewrite Ht, Hc, Hx, Hn. split; [reflexivity|]. split; [reflexivity|].
  split; [apply mergedCodes_dom|]. split; [|reflexivity].
  intros k. apply mget_mergedCodes.
Qed.

Lemma merge_fields_witness :
  exists s, MergeCrawlStats statsP statsQ = Some s
            /\ Total s = 4 /\ mget (StatusCodes s) 500 = 1
            /\ Non200Urls s = Non200Urls statsP ++ Non200Urls statsQ.
Proof.
  eexists. split; [vm_compute; reflexivity|].
  destruct (merge_fields statsP statsQ _ eq_refl) as (H1 & _ & _ & H4 & H5).
  split; [exact H1|]. split; [exact (H4 500)|exact H5].
Defined.

(** X3: [MergeCrawlStats] panics exactly when one of the averages is set
    and the two 200-counts add up to zero (as 64-bit integers); in every
    other case it returns. *)
Theorem merge_panics_exactly :
  forall a b,
    MergeCrawlStats a b = None <->
    (Average200Time a ≠ 0 \/ Average200Time b ≠ 0)
    /\ wrap (mget (StatusCodes a) 200 + mget (StatusCodes b) 200) = 0.
Proof. exact merge_panics_iff. Qed.

(** X4: when an average is set, the counts and the averages are not
    negative, the 200-counts are not both zero and neither their sum nor the
    sum of the weighted latencies overflows, the merged average is the
    weighted average of the two, truncated to the nanosecond. *)
Theorem merge_weighted_average :
  forall a b,
    Average200Time a ≠ 0 \/ Average200Time b ≠ 0 ->
    0 <= mget (StatusCodes a) 200 -> 0 <= mget (StatusCodes b) 200 ->
    0 < mget (StatusCodes a) 200 + mget (StatusCodes b) 200 ->
    mget (StatusCodes a) 200 + mget (StatusCodes b) 200 <= max_int ->
    0 <= Average200Time a -> 0 <= Average200Time b ->
    Average200Time a * mget (StatusCodes a) 200
    + Average200Time b * mget (StatusCodes b) 200 <= max_int ->
    exists s,
      MergeCrawlStats a b = Some s
      /\ Average200Time s =
         (Average200Time a * mget (StatusCodes a) 200
          + Average200Time b * mget (StatusCodes b) 200)
         `quot` (mget (StatusCodes a) 200 + mget (StatusCodes b) 200).
Proof.
  intros a b Havg Hna Hnb Hpos Hmax Ha Hb Hsum.
  pose proof (merge_average_weighted_exact a b Havg Hna Hnb Hpos Hmax Ha Hb Hsum) as H.
  destruct (MergeCrawlStats a b) as [s|]; [|discriminate].
  exists s. split; [reflexivity|]. now injection H.
Qed.

Lemma merge_weighted_average_witness :
  exists s, MergeCrawlStats statsA15 statsB30 = Some s /\ Average200Time s = 20.
Proof.
  destruct (merge_weighted_average statsA15 statsB30) as (s & Hs & Ha);
    try (vm_compute; congruence).
  - left. vm_compute. discriminate.
  - exists s. split; [exact Hs|]. rewrite Ha. reflexivity.
Defined.

(* ===================================================================== *)
(** ** What a phase records *)

Lemma populate_non200 r acc :
  Non200Urls (populateCrawlStats r acc).1 =
  Non200Urls acc.1 ++ (if decide (StatusCode r = 200) then [] else [reportOf r]).
Proof.
  destruct acc as [s t]. unfold populateCrawlStats.
  destruct (decide _); simpl; [now rewrite app_nil_r|reflexivity].
Qed.

Lemma populate_max r acc :
  Max200Time (populateCrawlStats r acc).1 =
  if decide (StatusCode r = 200)
  then Z.max (Max200Time acc.1) (default 0 (ServerTime r))
  else Max200Time acc.1.
Proof.
  destruct acc as [s t]. unfold populateCrawlStats.
  destruct (decide (StatusCode r = 200)); simpl; [|reflexivity].
  destruct (ServerTime r); simpl; destruct (decide _); lia.
Qed.

Lemma recordAll_non200 rs acc :
  Non200Urls (recordAll rs acc).1 =
  Non200Urls acc.1 ++ (reportOf <$> filter (fun r => StatusCode r ≠ 200) rs).
Proof.
  induction rs as [|r rs IH] using rev_ind; [simpl; now rewrite app_nil_r|].
  rewrite recordAll_snoc, populate_non200, IH.
  rewrite list.filter_app, fmap_app, list.filter_cons, list.filter_nil.
  rewrite <- app_assoc. f_equal. f_equal.
  destruct (decide (StatusCode r = 200)), (decide (StatusCode r ≠ 200));
    try reflexivity; contradiction.
Qed.

Lemma recordAll_max rs acc :
  Max200Time (recordAll rs acc).1 = foldl Z.max (Max200Time acc.1) (ok200Times rs).
Proof.
  induction rs as [|r rs IH] using rev_ind; [reflexivity|].
  rewrite recordAll_snoc, populate_max, IH. unfold ok200Times.
  rewrite list.filter_app, fmap_app, foldl_app, list.filter_cons, list.filter_nil.
  destruct (decide (StatusCode r = 200)); reflexivity.
Qed.

Lemma foldl_max_bounds (l : list Z) (m : Z) :
  m <= foldl Z.max m l
  /\ (forall t, t ∈ l -> t <= foldl Z.max m l)
  /\ (foldl Z.max m l = m \/ foldl Z.max m l ∈ l).
Proof.
  revert m. induction l as [|x l IH]; intros m; simpl.
  - split; [lia|]. split; [|now left]. intros t Ht. now apply elem_of_nil in Ht.
  - destruct (IH (Z.max m x)) as (H1 & H2 & H3). split; [lia|]. split.
    + intros t Ht. apply elem_of_cons in Ht as [->|Ht]; [lia|now apply H2].
    + destruct H3 as [H3|H3].
      * rewrite H3. destruct (Z.max_spec m x) as [[_ ->]|[_ ->]];
          [right; apply list_elem_of_here | now left].
      * right. now apply list_elem_of_further.
Qed.

Lemma countStatus_snoc c rs r :
  countStatus c (rs ++ [r]) =
  countStatus c rs + (if decide (StatusCode r = c) then 1 else 0).
Proof.
  unfold countStatus.
  rewrite list.filter_app, length_app, list.filter_cons, list.filter_nil.
  destruct (decide (StatusCode r = c)); simpl; lia.
Qed.

Lemma countStatus_le c rs : 0 <= countStatus c rs <= Z.of_nat (length rs).
Proof.
  unfold countStatus. pose proof (length_filter (fun r => StatusCode r = c) rs). lia.
Qed.

Lemma recordAll_histogram rs acc c :
  statsInv acc.1 -> Total acc.1 + Z.of_nat (length rs) <= max_int ->
  mget (StatusCodes (recordAll rs acc).1) c
  = mget (StatusCodes acc.1) c + countStatus c rs.
Proof.
  intros Hinv. induction rs as [|r rs IH] using rev_ind; intros Hlen.
  - unfold countStatus. simpl. lia.
  - rewrite length_app in Hlen. simpl in Hlen.
    destruct (recordAll_inv rs acc Hinv) as [Hinv' Htot]; [lia|].
    rewrite recordAll_snoc, populate_codes, countStatus_snoc.
    destruct Hinv' as (Hnn & Hsum & _).
    pose proof (mget_le_sumCounts _ (StatusCode r) Hnn) as Hk.
    rewrite add_exact by (unfold in_range, min_int, max_int in *; lia).
    destruct (decide (StatusCode r = c)) as [->|Hne].
    + rewrite mget_insert, IH by lia. lia.
    + rewrite mget_insert_ne, IH by (done || lia). lia.
Qed.

Lemma recordAll_absent rs acc c :
  StatusCodes (recordAll rs acc).1 !! c = None <->
  StatusCodes acc.1 !! c = None /\ countStatus c rs = 0.
Proof.
  induction rs as [|r rs IH] using rev_ind.
  - simpl. unfold countStatus. simpl. tauto.
  - rewrite recordAll_snoc, populate_codes, countStatus_snoc.
    pose proof (countStatus_le c rs).
    destruct (decide (StatusCode r = c)) as [->|Hne].
    + rewrite lookup_insert_eq. split; [discriminate|lia].
    + rewrite lookup_insert_ne, IH by done.
      split; intros [H1 H2]; (split; [exact H1|lia]).
Qed.

(** X5: a phase that receives fewer than [2^63] results counts them
    exactly: its total is the number of results, and its histogram holds,
    for every status code, the number of results with that code; a code
    that no result has is not a key of the histogram. *)
Theorem phase_counts :
  forall (rs : list HTTPResponse),
    Z.of_nat (length rs) <= max_int ->
    Total (recordAll rs freshAcc).1 = Z.of_nat (length rs)
    /\ (forall c, mget (StatusCodes (recordAll rs freshAcc).1) c = countStatus c rs)
    /\ (forall c, StatusCodes (recordAll rs freshAcc).1 !! c = None <->
                  countStatus c rs = 0).
Proof.
  intros rs Hlen.
  destruct (recordAll_inv rs freshAcc statsInv_fresh) as [Hinv Htot];
    [simpl; lia|].
  split; [rewrite Htot; simpl; lia|]. split.
  - intros c. rewrite recordAll_histogram; [|exact statsInv_fresh|simpl; lia].
    simpl. rewrite mget_empty. lia.
  - intros c. rewrite recordAll_absent. simpl. rewrite lookup_empty. tauto.
Qed.

Lemma phase_counts_witness :
  Total (recordAll threeResults freshAcc).1 = 3
  /\ mget (StatusCodes (recordAll threeResults freshAcc).1) 200 = 2.
Proof.
  destruct (phase_counts threeResults) as (H1 & H2 & _);
    [vm_compute; discriminate|].
  split; [exact H1 | exact (H2 200)].
Defined.

(** X6: the reports of a phase are those of the results whose status is not
    200, in the order of their reception, each with the URL, the status and
    the latency of its result and no linking URL; and the maximum is the
    largest latency of the results with status 200, or zero when none of
    them is positive. *)
Theorem phase_reports_and_maximum :
  forall (rs : list HTTPResponse),
    let stats := (recordAll rs freshAcc).1 in
    Non200Urls stats = reportOf <$> filter (fun r => StatusCode r ≠ 200) rs
    /\ 0 <= Max200Time stats
    /\ (forall t, t ∈ ok200Times rs -> t <= Max200Time stats)
    /\ (Max200Time stats = 0 \/ Max200Time stats ∈ ok200Times rs).
Proof.
  intros rs stats. subst stats. rewrite recordAll_non200, recordAll_max. simpl.
  split; [reflexivity|]. apply foldl_max_bounds.
Qed.

(* ===================================================================== *)
(** ** The result set of a phase *)

Lemma indexByURL_snoc rs r :
  indexByURL (rs ++ [r]) = <[URL r := r]> (indexByURL rs).
Proof. unfold indexByURL. now rewrite foldl_app. Qed.

Lemma indexByURL_lookup rs u :
  indexByURL rs !! u = list.last (filter (fun r => URL r = u) rs).
Proof.
  induction rs as [|r rs IH] using rev_ind; [reflexivity|].
  rewrite indexByURL_snoc, list.filter_app, list.filter_cons, list.filter_nil.
  destruct (decide (URL r = u)) as [->|Hne].
  - now rewrite lookup_insert_eq, list.last_snoc.
  - now rewrite lookup_insert_ne, app_nil_r.
Qed.

(** X7: the result set that [crawlUrls] returns maps a URL to the last
    received result with that URL, and to none when no result has it; so
    when the received results have distinct URLs, each of them is kept. *)
Theorem results_last_write_wins :
  forall (rs : list HTTPResponse),
    (forall u, indexByURL rs !! u = list.last (filter (fun r => URL r = u) rs))
    /\ (forall u, is_Some (indexByURL rs !! u) <-> u ∈ URL <$> rs)
    /\ (forall u r, indexByURL rs !! u = Some r -> URL r = u /\ r ∈ rs)
    /\ (NoDup (URL <$> rs) ->
        forall r, r ∈ rs -> indexByURL rs !! URL r = Some r).
Proof.
  intros rs.
  assert (H3 : forall u r, indexByURL rs !! u = Some r -> URL r = u /\ r ∈ rs).
  { intros u r. rewrite indexByURL_lookup. intros Hl.
    apply list.last_Some_elem_of in Hl. apply list_elem_of_filter in Hl. exact Hl. }
  split; [exact (indexByURL_lookup rs)|]. split; [|split; [exact H3|]].
  - intros u. split.
    + intros [r Hr]. apply H3 in Hr as [<- Hin]. now apply list_elem_of_fmap_2.
    + intros Hu. apply list_elem_of_fmap in Hu as (r & -> & Hin).
      rewrite indexByURL_lookup.
      destruct (filter (fun r0 => URL r0 = URL r) rs) as [|x l] eqn:E.
      * assert (Hr : r ∈ filter (fun r0 => URL r0 = URL r) rs)
          by now apply list_elem_of_filter.
        rewrite E in Hr. now apply elem_of_nil in Hr.
      * apply list.last_is_Some. discriminate.
  - intros Hnd r Hin.
    destruct (indexByURL rs !! URL r) as [r'|] eqn:E.
    + apply H3 in E as [Hu Hin']. f_equal.
      apply list_elem_of_lookup in Hin as [i Hi].
      apply list_elem_of_lookup in Hin' as [j Hj].
      assert (i = j).
      { eapply NoDup_lookup; [exact Hnd| |];
          rewrite list_lookup_fmap; [rewrite Hi|rewrite Hj]; simpl;
          [reflexivity|now rewrite Hu]. }
      subst j. congruence.
    + exfalso. rewrite indexByURL_lookup in E.
      apply list.last_None in E.
      assert (Hr : r ∈ filter (fun r0 => URL r0 = URL r) rs)
        by now apply list_elem_of_filter.
      rewrite E in Hr. now apply elem_of_nil in Hr.
Qed.

Lemma results_last_write_wins_witness :
  indexByURL threeResults !! "u2"%string
  = Some (mkHTTPResponse "u2" 404 (Some 3) None []).
Proof.
  destruct (results_last_write_wins threeResults) as (_ & _ & _ & H).
  assert (Hnd : NoDup (URL <$> threeResults)) by (vm_compute; compute_done).
  assert (Hin : mkHTTPResponse "u2" 404 (Some 3) None [] ∈ threeResults)
    by (unfold threeResults; apply list_elem_of_further, list_elem_of_here).
  exact (H Hnd _ Hin).
Defined.

(* ===================================================================== *)
(** ** The calls and the reports of [AsyncCrawl] *)

(** X8: [AsyncCrawl] calls the getter once, or twice when a link flag is
    set, never more; every call is made with the throttle of the
    configuration, or with 1 when that throttle is not positive; the first
    call parses links exactly when a link flag is set and the second never
    does; the user, the password, the timeout and the custom header are
    passed on unchanged, and the seed URLs too when no host is set. *)
Theorem AsyncCrawl_calls :
  forall (Quit : Type)
         (getter : list string -> HTTPConfig -> Z -> Quit -> list HTTPResponse)
         (RewriteURLHost : list string -> string -> list string)
         urls config quit log,
    let throttle := if decide (Throttle config <= 0) then 1 else Throttle config in
    let parse := CrawlExternalLinks (CLinks config) || CrawlHyperlinks (CLinks config)
                 || CrawlImages (CLinks config) in
    let urls' := effectiveURLs RewriteURLHost urls config in
    let first := mkGetCall urls' (withParseLinks parse (HTTP config)) throttle in
    let second := mkGetCall (linkedUrlsOf getter urls' (effectiveConfig config) quit)
                    (withParseLinks false (HTTP config)) throttle in
    exists stats err,
      AsyncCrawl Quit getter RewriteURLHost urls config quit log
      = Some ((stats, err), log ++ (if parse then [first; second] else [first]))
      /\ 1 <= throttle
      /\ (0 < Throttle config -> throttle = Throttle config)
      /\ (Host config = "" -> urls' = urls).
Proof.
  intros Quit getter RW urls config quit log throttle parse urls' first second.
  destruct (AsyncCrawl_run getter RW urls config quit log) as (log' & Hph & Hrun).
  fold urls' in Hph, Hrun. rewrite crawlPhases_run in Hph.
  apply (f_equal (fun o => snd <$> o)) in Hph.
  change (ParseLinks (HTTP (effectiveConfig config))) with parse in Hph.
  change (withParseLinks false (HTTP (effectiveConfig config)))
    with (withParseLinks false (HTTP config)) in Hph.
  change (HTTP (effectiveConfig config))
    with (withParseLinks parse (HTTP config)) in Hph.
  change (Throttle (effectiveConfig config)) with throttle in Hph.
  fold first second in Hph.
  assert (Hlog : log' = log ++ (if parse then [first; second] else [first])).
  { clearbody parse first second. destruct parse; simpl in Hph;
      now injection Hph as <-. }
  subst log'. eexists _, _. split; [exact Hrun|].
  subst throttle. split; [|split].
  - destruct (decide _); lia.
  - intros Hpos. destruct (decide _); lia.
  - intros Hh. unfold urls', effectiveURLs.
    destruct (decide (Host config ≠ "")) as [Hne|_]; [destruct (Hne Hh)|reflexivity].
Qed.

Lemma AsyncCrawl_calls_witness :
  exists stats err,
    AsyncCrawl unit linkingGetter idRewrite ["a"; "b"]%string zeroThrottleConfig tt []
    = Some ((stats, err),
            [mkGetCall ["a"; "b"]%string (withParseLinks true plainHTTP) 1;
             mkGetCall ["x"]%string plainHTTP 1]).
Proof.
  destruct (AsyncCrawl_calls unit linkingGetter idRewrite ["a"; "b"]%string
              zeroThrottleConfig tt []) as (stats & err & Hrun & _).
  exists stats, err. rewrite Hrun. vm_compute. reflexivity.
Defined.





(* ===================================================================== *)
(** ** The error of [AsyncCrawl] and the reports *)

Lemma filter_complement_length (rs : list HTTPResponse) c :
  (length (filter (fun r => StatusCode r = c) rs)
   + length (filter (fun r => StatusCode r ≠ c) rs) = length rs)%nat.
Proof.
  induction rs as [|r rs IH]; [reflexivity|].
  rewrite !list.filter_cons.
  destruct (decide (StatusCode r = c)), (decide (StatusCode r ≠ c));
    simpl; try contradiction; lia.
Qed.

Lemma phaseAcc_balance {Quit : Type}
    (getter : list string -> HTTPConfig -> Z -> Quit -> list HTTPResponse)
    urls config quit :
  Z.of_nat (length (received Quit getter urls config quit)) < 2 ^ 62 ->
  let s := (phaseAcc getter urls config quit).1 in
  statsInv s /\ Total s < 2 ^ 62
  /\ Z.of_nat (length (Non200Urls s)) + mget (StatusCodes s) 200 = Total s.
Proof.
  intros Hb s. subst s.
  destruct (phaseAcc_inv getter urls config quit Hb) as [Hinv Hlt].
  split; [exact Hinv|]. split; [exact Hlt|].
  unfold phaseAcc in *.
  set (rs := received Quit getter urls config quit) in *.
  destruct (recordAll_inv rs freshAcc statsInv_fresh) as [_ Htot];
    [simpl; unfold max_int; lia|].
  rewrite recordAll_non200, recordAll_histogram, Htot;
    [|exact statsInv_fresh|simpl; unfold max_int; lia].
  simpl. rewrite mget_empty, length_fmap. unfold countStatus.
  pose proof (filter_complement_length rs 200). lia.
Qed.

Lemma phasesResult_balance {Quit : Type}
    (getter : list string -> HTTPConfig -> Z -> Quit -> list HTTPResponse)
    urls config quit :
  Z.of_nat (length (received Quit getter urls config quit)) < 2 ^ 62 ->
  Z.of_nat (length (received Quit getter (linkedUrlsOf getter urls config quit)
                      (linksConfigOf config) quit)) < 2 ^ 62 ->
  let s := (phasesResult getter urls config quit).1 in
  0 <= mget (StatusCodes s) 200
  /\ Z.of_nat (length (Non200Urls s)) + mget (StatusCodes s) 200 = Total s.
Proof.
  intros Hb1 Hb2 s. subst s.
  destruct (phaseAcc_balance getter urls config quit Hb1) as (Hi1 & Ht1 & Hbal1).
  destruct (phaseAcc_balance getter _ _ quit Hb2) as (Hi2 & Ht2 & Hbal2).
  unfold phasesResult. destruct (ParseLinks (HTTP config)); simpl.
  - fold (linkedUrlsOf getter urls config quit).
    set (s1 := (phaseAcc getter urls config quit).1) in *.
    set (s2 := (phaseAcc getter (linkedUrlsOf getter urls config quit)
                  (linksConfigOf config) quit).1) in *.
    destruct Hi1 as (Hn1 & Hs1 & _), Hi2 as (Hn2 & Hs2 & _).
    pose proof (mget_le_sumCounts _ 200 Hn1). pose proof (mget_le_sumCounts _ 200 Hn2).
    rewrite mget_mergedCodes, length_app, length_map.
    rewrite wrap_id, add_exact by (unfold in_range, min_int, max_int; lia).
    lia.
  - destruct Hi1 as (Hn1 & _ & _).
    pose proof (mget_le_sumCounts _ 200 Hn1). lia.
Qed.

(** X10: in the statistics that [AsyncCrawl] returns (for fewer than [2^62]
    results per phase) the reports and the 200-count add up to the total; so
    the error is "no URL crawled" exactly when the total is zero, "some URLs
    had a different status code than 200" exactly when there is a report,
    and there is no error exactly when something was crawled and there is no
    report. *)
Theorem AsyncCrawl_error_and_reports :
  forall (Quit : Type)
         (getter : list string -> HTTPConfig -> Z -> Quit -> list HTTPResponse)
         (RewriteURLHost : list string -> string -> list string)
         urls config quit log,
    let urls' := effectiveURLs RewriteURLHost urls config in
    let config' := effectiveConfig config in
    Z.of_nat (length (received Quit getter urls' config' quit)) < 2 ^ 62 ->
    Z.of_nat (length (received Quit getter (linkedUrlsOf getter urls' config' quit)
                        (linksConfigOf config') quit)) < 2 ^ 62 ->
    exists stats err log',
      AsyncCrawl Quit getter RewriteURLHost urls config quit log
      = Some ((stats, err), log')
      /\ Z.of_nat (length (Non200Urls stats)) + mget (StatusCodes stats) 200
         = Total stats
      /\ (err = Some errNoURL <-> Total stats = 0)
      /\ (err = Some errNon200 <-> Non200Urls stats ≠ [])
      /\ (err = None <-> Total stats ≠ 0 /\ Non200Urls stats = []).
Proof.
  intros Quit getter RW urls config quit log urls' config' Hb1 Hb2.
  destruct (AsyncCrawl_run getter RW urls config quit log) as (log' & _ & Hrun).
  fold urls' config' in Hrun.
  destruct (phasesResult_balance getter urls' config' quit Hb1 Hb2) as [H200 Hbal].
  set (merged := (phasesResult getter urls' config' quit).1) in *.
  set (final := if decide (mget (StatusCodes merged) 200 > 0) then _ else _) in Hrun.
  assert (Hf : Total final = Total merged /\ StatusCodes final = StatusCodes merged
               /\ Non200Urls final = Non200Urls merged)
    by (subst final; now destruct (decide _)).
  destruct Hf as (Hft & Hfc & Hfn).
  exists final, (classify final), log'. split; [exact Hrun|].
  rewrite Hft, Hfc, Hfn. split; [exact Hbal|].
  assert (Hlen : Non200Urls merged = [] <-> Z.of_nat (length (Non200Urls merged)) = 0).
  { destruct (Non200Urls merged); simpl; split; intros; (done || lia). }
  unfold classify. rewrite Hft, Hfc.
  destruct (decide (Total merged = 0)) as [H0|H0].
  - assert (Hnil : Non200Urls merged = []) by (apply Hlen; lia).
    split; [tauto|]. split; [|split; [discriminate|tauto]].
    split; [discriminate|]. rewrite Hnil. congruence.
  - destruct (decide (Total merged ≠ mget (StatusCodes merged) 200)) as [Hne|Heq].
    + assert (Hnn : Non200Urls merged ≠ []) by (rewrite Hlen; lia).
      split; [split; [discriminate|tauto]|]. split; [tauto|].
      split; [discriminate|tauto].
    + assert (Hnil : Non200Urls merged = []) by (apply Hlen; lia).
      split; [split; [discriminate|tauto]|].
      split; [split; [discriminate|rewrite Hnil; congruence]|tauto].
Qed.

Lemma AsyncCrawl_error_and_reports_witness :
  exists stats err log',
    AsyncCrawl unit okGetter idRewrite ["a"; "b"]%string noLinksConfig tt []
    = Some ((stats, err), log')
    /\ (err = None <-> Total stats ≠ 0 /\ Non200Urls stats = []).
Proof.
  destruct (AsyncCrawl_error_and_reports unit okGetter idRewrite ["a"; "b"]%string
              noLinksConfig tt [])
    as (stats & err & log' & Hrun & _ & _ & _ & Hnone);
    [vm_compute; reflexivity..|].
  exists stats, err, log'. split; [exact Hrun|exact Hnone].
Defined.

(* ===================================================================== *)
(** ** The fetcher and the aggregator *)

(** X11: the links of the response of [HTTPGet] come from the extraction
    only: there is none unless link parsing was asked for, [client.Do]
    returned a response without error and the URL parses, and then they are
    what [ExtractLinks] returns for the body (also when it reports an
    error, which is not passed on); and the timing is missing exactly when
    the request could not be created. *)
Theorem HTTPGet_links :
  forall (Client Body ParsedURL : Type)
         (createRequestErr : string -> option string)
         (clientDo : Client -> string -> HTTPConfig -> DoOutcome Body)
         (totalTime : Client -> string -> Z)
         (urlParse : string -> option ParsedURL)
         (ExtractLinks : Body -> ParsedURL -> list Link * option string)
         (client : Client) (urlStr : string) (config : HTTPConfig),
    let r := HTTPGet Client Body ParsedURL createRequestErr clientDo totalTime
               urlParse ExtractLinks client urlStr config in
    (Links r ≠ [] ->
       ParseLinks config = true /\ Err r = None /\ createRequestErr urlStr = None
       /\ exists resp currentURL,
            clientDo client urlStr config = DoResponse resp
            /\ urlParse urlStr = Some currentURL)
    /\ (forall resp currentURL,
          createRequestErr urlStr = None ->
          clientDo client urlStr config = DoResponse resp ->
          ParseLinks config = true -> urlParse urlStr = Some currentURL ->
          Links r = (ExtractLinks (raw_Body resp) currentURL).1 /\ Err r = None)
    /\ (ServerTime r = None <-> createRequestErr urlStr ≠ None)
    /\ (createRequestErr urlStr = None ->
        ServerTime r = Some (totalTime client urlStr)).
Proof.
  intros Client Body ParsedURL cre cdo tot up ex client urlStr config r.
  subst r. unfold HTTPGet, parseLinks.
  destruct (cre urlStr) as [e|]; simpl.
  - split; [done|]. split; [discriminate|]. split; [|discriminate].
    split; [discriminate|done].
  - destruct (cdo client urlStr config) as [resp|e|resp e]; simpl;
      (split; [|split; [|split; [split; [discriminate|done]|done]]]);
      try done.
    + intros Hl. destruct (ParseLinks config); [|done].
      destruct (up urlStr) as [cur|]; [|done]. eauto 10.
    + intros resp' cur _ [= <-] -> ->. done.
Qed.

Lemma HTTPGet_links_witness :
  let r := HTTPGet unit unit unit (fun _ => None) notFound (fun _ _ => 7)
             (fun _ => Some tt) (fun _ _ => ([mkLink Image "i" true], Some "eof"%string))
             tt "http://a/x" (withParseLinks true plainHTTP) in
  Links r = [mkLink Image "i" true] /\ Err r = None.
Proof.
  exact (proj1 (proj2 (HTTPGet_links unit unit unit (fun _ => None) notFound
                         (fun _ _ => 7) (fun _ => Some tt)
                         (fun _ _ => ([mkLink Image "i" true], Some "eof"%string))
                         tt "http://a/x" (withParseLinks true plainHTTP)))
           (mkRawResponse 404 tt) tt eq_refl eq_refl eq_refl eq_refl).
Defined.

(** X12: a fetch that got no response (the request could not be created,
    or [client.Do] returned an error alone) is recorded under the status
    code 0: the record step counts it in the total and in the entry 0 of the
    histogram, appends a report with status 0 for its URL, and leaves the
    sum and the maximum of the 200-latencies alone. *)
Theorem failed_fetch_recorded :
  forall (Client Body ParsedURL : Type)
         (createRequestErr : string -> option string)
         (clientDo : Client -> string -> HTTPConfig -> DoOutcome Body)
         (totalTime : Client -> string -> Z)
         (urlParse : string -> option ParsedURL)
         (ExtractLinks : Body -> ParsedURL -> list Link * option string)
         (client : Client) (urlStr : string) (config : HTTPConfig)
         (acc : CrawlStats * Z),
    let r := HTTPGet Client Body ParsedURL createRequestErr clientDo totalTime
               urlParse ExtractLinks client urlStr config in
    createRequestErr urlStr ≠ None
    \/ (exists err, clientDo client urlStr config = DoError err) ->
    let acc' := populateCrawlStats r acc in
    Err r ≠ None
    /\ acc'.2 = acc.2
    /\ Max200Time acc'.1 = Max200Time acc.1
    /\ Total acc'.1 = add (Total acc.1) 1
    /\ StatusCodes acc'.1
       = <[0 := add (mget (StatusCodes acc.1) 0) 1]> (StatusCodes acc.1)
    /\ exists t, Non200Urls acc'.1
                 = Non200Urls acc.1 ++ [mkCrawlResult urlStr 0 t []]
                 /\ (createRequestErr urlStr ≠ None -> t = 0)
                 /\ (createRequestErr urlStr = None -> t = totalTime client urlStr).
Proof.
  intros Client Body ParsedURL cre cdo tot up ex client urlStr config acc r Hfail acc'.
  assert (Hr : URL r = urlStr /\ StatusCode r = 0 /\ Err r ≠ None
               /\ ServerTime r = match cre urlStr with
                                 | Some _ => None
                                 | None => Some (tot client urlStr)
                                 end).
  { subst r. unfold HTTPGet. destruct (cre urlStr) as [e|]; [done|].
    destruct Hfail as [H|[e He]]; [done|]. rewrite He. done. }
  destruct Hr as (Hu & Hs & He & Ht).
  subst acc'. destruct acc as [s t0]. unfold populateCrawlStats.
  rewrite Hs, Hu. destruct (decide (0 = 200)); [lia|]. simpl.
  split; [exact He|]. split; [reflexivity|]. split; [reflexivity|].
  split; [reflexivity|]. split; [reflexivity|].
  eexists. split; [reflexivity|]. rewrite Ht.
  destruct (cre urlStr); split; intros; done.
Qed.

Lemma failed_fetch_recorded_witness :
  let r := HTTPGet unit unit unit (fun _ => Some "bad URL"%string) notFound
             (fun _ _ => 7) (fun _ => None) (fun _ _ => ([], None))
             tt "::" plainHTTP in
  StatusCodes (populateCrawlStats r freshAcc).1 = {[ 0 := 1 ]}
  /\ (populateCrawlStats r freshAcc).2 = 0.
Proof.
  destruct (failed_fetch_recorded unit unit unit (fun _ => Some "bad URL"%string)
              notFound (fun _ _ => 7) (fun _ => None) (fun _ _ => ([], None))
              tt "::" plainHTTP freshAcc ltac:(left; discriminate))
    as (_ & H2 & _ & _ & H5 & _).
  split; [rewrite H5; reflexivity | exact H2].
Defined.

(* ===================================================================== *)
(** ** The custom header *)

Lemma cutAt_app sep k v :
  lacks sep k -> cutAt sep (String.append k (String sep v)) = Some (k, v).
Proof.
  induction k as [|c k IH]; simpl.
  - intros _. now rewrite Ascii.eqb_refl.
  - intros [Hc Hk]. destruct (Ascii.eqb_spec c sep) as [->|_]; [done|].
    now rewrite IH.
Qed.

Lemma cutAt_None sep s : lacks sep s -> cutAt sep s = None.
Proof.
  induction s as [|c s IH]; simpl; [done|]. intros [Hc Hs].
  destruct (Ascii.eqb_spec c sep) as [->|_]; [done|]. now rewrite IH.
Qed.

Lemma cutAt_Some sep s before after :
  cutAt sep s = Some (before, after) ->
  s = String.append before (String sep after) /\ lacks sep before.
Proof.
  revert before. induction s as [|c s IH]; intros before; simpl; [discriminate|].
  destruct (Ascii.eqb_spec c sep) as [->|Hne].
  - intros [= <- <-]. done.
  - destruct (cutAt sep s) as [[b a]|]; [|discriminate]. intros [= <- <-].
    destruct (IH b eq_refl) as [-> Hl]. done.
Qed.

(** X13: [configureRequest] leaves the URL alone and sets the credentials
    exactly when the user name is not empty.  It adds one header exactly
    when the custom header holds a colon: the key is the trimmed text before
    the first colon and the value the trimmed text after it, further colons
    included; a custom header without colon (the empty one too) adds
    nothing. *)
Theorem configureRequest_header :
  forall (TrimSpace : string -> string) (req : Request) (config : HTTPConfig),
    let req' := configureRequest TrimSpace req config in
    rq_url req' = rq_url req
    /\ (User config = EmptyString -> rq_basicAuth req' = rq_basicAuth req)
    /\ (User config ≠ EmptyString ->
        rq_basicAuth req' = Some (User config, Pass config))
    /\ (lacks colon (CustomHeader config) -> rq_headers req' = rq_headers req)
    /\ (forall key value,
          lacks colon key ->
          CustomHeader config = String.append key (String colon value) ->
          rq_headers req' = rq_headers req ++ [(TrimSpace key, TrimSpace value)])
    /\ (rq_headers req' = rq_headers req
        \/ exists key value,
             CustomHeader config = String.append key (String colon value)
             /\ lacks colon key
             /\ rq_headers req' = rq_headers req ++ [(TrimSpace key, TrimSpace value)]).
Proof.
  intros TrimSpace req config req'. subst req'. unfold configureRequest.
  set (req1 := if decide (0 < String.length (User config))%nat then _ else req).
  assert (H1 : rq_url req1 = rq_url req /\ rq_headers req1 = rq_headers req)
    by (subst req1; now destruct (decide _)).
  destruct H1 as [Hu Hh].
  assert (Ha : (User config = EmptyString -> rq_basicAuth req1 = rq_basicAuth req)
               /\ (User config ≠ EmptyString ->
                   rq_basicAuth req1 = Some (User config, Pass config))).
  { subst req1. destruct (User config) as [|c u]; simpl.
    - split; [reflexivity|done].
    - split; [discriminate|]. intros _.
      destruct (decide _) as [|Hn]; [reflexivity|]. simpl in Hn. lia. }
  destruct Ha as [Ha1 Ha2]. unfold splitColon2.
  destruct (decide (0 < String.length (CustomHeader config))%nat) as [Hlen|Hlen].
  - destruct (cutAt colon (CustomHeader config)) as [[b a]|] eqn:Hcut; simpl.
    + apply cutAt_Some in Hcut as [Hc Hl].
      split; [exact Hu|]. split; [exact Ha1|]. split; [exact Ha2|]. split; [|split].
      * intros Hno. apply cutAt_None in Hno.
        rewrite Hc, cutAt_app in Hno by done. discriminate.
      * intros key value Hk Hv. rewrite Hh.
        assert (E : Some (b, a) = Some (key, value)).
        { rewrite <- (cutAt_app colon b a Hl), <- (cutAt_app colon key value Hk).
          now rewrite <- Hc, <- Hv. }
        now injection E as -> ->.
      * right. exists b, a. rewrite Hh. done.
    + split; [exact Hu|]. split; [exact Ha1|]. split; [exact Ha2|].
      split; [intros _; exact Hh|]. split; [|left; exact Hh].
      intros key value Hk Hv. rewrite Hv, cutAt_app in Hcut by done. discriminate.
  - split; [exact Hu|]. split; [exact Ha1|]. split; [exact Ha2|].
    split; [intros _; exact Hh|]. split; [|left; exact Hh].
    intros key value Hk Hv. rewrite Hv in Hlen. exfalso. apply Hlen.
    clear. induction key; simpl; lia.
Qed.

Lemma configureRequest_header_witness :
  rq_headers (configureRequest id (mkRequest "http://a/" None []) hostHeaderConfig)
  = [("X-Forwarded-Host"%string, " example.org:8080"%string)].
Proof.
  destruct (configureRequest_header id (mkRequest "http://a/" None [])
              hostHeaderConfig) as (_ & _ & _ & _ & H & _).
  apply (H "X-Forwarded-Host"%string " example.org:8080"%string);
    [vm_compute; intuition discriminate | reflexivity].
Defined.

(* ===================================================================== *)
(** ** The sitemap *)

Lemma foldl_parse {A B} (f : A -> option B) (acc : list B) (l : list A) :
  foldl (fun urls loc => match f loc with None => urls | Some u => urls ++ [u] end)
    acc l = acc ++ omap f l.
Proof.
  revert acc. induction l as [|x l IH]; intros acc; csimpl.
  - now rewrite app_nil_r.
  - rewrite IH. destruct (f x); [|reflexivity]. now rewrite <- app_assoc.
Qed.

Lemma foldl_snoc_map {A B} (f : A -> B) (acc : list B) (l : list A) :
  foldl (fun urls x => urls ++ [f x]) acc l = acc ++ (f <$> l).
Proof.
  revert acc. induction l as [|x l IH]; intros acc; simpl.
  - now rewrite app_nil_r.
  - rewrite IH. now rewrite <- app_assoc.
Qed.

Lemma length_omap_le {A B} (f : A -> option B) (l : list A) :
  (length (omap f l) <= length l)%nat.
Proof. induction l as [|x l IH]; csimpl; [lia|]. destruct (f x); simpl; lia. Qed.

(** X14: when the sitemap cannot be read, [GetSitemapUrls] and
    [GetSitemapUrlsAsStrings] return no URL and the error.  Otherwise they
    return no error, also when an entry does not parse: the URLs are the
    entries that parse, in the order of the sitemap, the others being
    dropped, so there are at most as many URLs as entries. *)
Theorem GetSitemapUrls_result :
  forall (ParsedURL : Type)
         (sitemapGet : string -> list string * option string)
         (urlParse : string -> option ParsedURL)
         (urlString : ParsedURL -> string) (sitemapURL : string),
    let typed := GetSitemapUrls ParsedURL sitemapGet urlParse sitemapURL in
    let strings := GetSitemapUrlsAsStrings ParsedURL sitemapGet urlParse urlString
                     sitemapURL in
    (forall err, (sitemapGet sitemapURL).2 = Some err ->
       typed = ([], Some err) /\ strings = ([], Some err))
    /\ ((sitemapGet sitemapURL).2 = None ->
        typed = (omap urlParse (sitemapGet sitemapURL).1, None)
        /\ strings = (urlString <$> omap urlParse (sitemapGet sitemapURL).1, None)
        /\ (length typed.1 <= length (sitemapGet sitemapURL).1)%nat
        /\ (forall loc, loc ∈ (sitemapGet sitemapURL).1 ->
              forall u, urlParse loc = Some u -> u ∈ typed.1))
    /\ length strings.1 = length typed.1.
Proof.
  intros ParsedURL sg up us sitemapURL typed strings. subst typed strings.
  unfold GetSitemapUrlsAsStrings, GetSitemapUrls.
  destruct (sg sitemapURL) as [locs [err|]]; simpl.
  - split; [intros e [= <-]; done|]. split; [discriminate|reflexivity].
  - rewrite foldl_parse, foldl_snoc_map. simpl.
    split; [discriminate|]. split; [|now rewrite length_fmap].
    intros _. split; [reflexivity|]. split; [reflexivity|].
    split; [apply length_omap_le|].
    intros loc Hin u Hu. apply list_elem_of_omap. eauto.
Qed.

Lemma GetSitemapUrls_result_witness :
  GetSitemapUrls nat (fun _ => (["1"; "x"; "3"]%string, None))
    (fun s => if decide (s = "x"%string) then None else Some (String.length s))
    "http://a/sitemap.xml"
  = ([1%nat; 1%nat], None).
Proof.
  exact (proj1 (proj1 (proj2 (GetSitemapUrls_result nat
    (fun _ => (["1"; "x"; "3"]%string, None))
    (fun s => if decide (s = "x"%string) then None else Some (String.length s))
    (fun _ => ""%string) "http://a/sitemap.xml")) eq_refl)).
Defined.

(* ===================================================================== *)
(** ** More on the worker pool *)

Section PoolMore.

Variable httpGet : nat -> string -> HTTPConfig -> HTTPResponse.
Variable config : HTTPConfig.
Variable urls : list string.
Variable maxConcurrent : Z.

(** Induction on the states of the pool. *)
Lemma reachable_induction (P : Pool -> Prop) :
  (forall s0, init urls maxConcurrent = Some s0 -> P s0) ->
  (forall e s s',
     reachable httpGet config urls maxConcurrent s -> P s ->
     next httpGet config e s = Some s' -> P s') ->
  forall s, reachable httpGet config urls maxConcurrent s -> P s.
Proof.
  intros H0 Hstep s (s0 & es & Hi & Hrun).
  assert (Hgen : forall es s1 s2,
            reachable httpGet config urls maxConcurrent s1 -> P s1 ->
            run httpGet config es s1 = Some s2 -> P s2).
  { clear es Hrun. induction es as [|e es IH]; intros s1 s2 Hr Hp; simpl.
    - now intros [= <-].
    - destruct (next httpGet config e s1) as [s1'|] eqn:E; [|discriminate].
      apply IH; [|now apply (Hstep e s1)].
      apply (WorkerPoolFacts.reachable_run httpGet config urls maxConcurrent
               [e] s1 s1' Hr). simpl. now rewrite E. }
  apply (Hgen es s0 s); [|now apply H0|exact Hrun].
  exists s0, []. done.
Qed.

(** The loop is left on the signal or at the end of the URLs. *)
Lemma loop_exit s :
  reachable httpGet config urls maxConcurrent s ->
  mainState s ≠ Dispatching -> quitFired s = true \/ pending s = [].
Proof.
  intros Hr. pattern s. revert s Hr. apply reachable_induction.
  - intros s0. unfold init. destruct (decide _); [discriminate|].
    intros [= <-]. simpl. done.
  - intros e s s' _ IH Hnext Hm.
    destruct s as [pend ready ws rc st n q m]; simpl in *.
    destruct e; simpl in Hnext.
    + destruct q; [discriminate|]. injection Hnext as <-. simpl in *. now left.
    + destruct m; try discriminate. destruct pend; [discriminate|].
      destruct ready; [discriminate|]. injection Hnext as <-. simpl in *. done.
    + destruct m; try discriminate. destruct pend; [discriminate|].
      destruct q; [|discriminate]. injection Hnext as <-. simpl. now left.
    + destruct m; try discriminate. destruct pend; [|discriminate].
      injection Hnext as <-. simpl. now right.
    + destruct (ws !! i) as [[c u []]|]; try discriminate.
      injection Hnext as <-. simpl in *. now apply IH.
    + destruct (ws !! i) as [[c u []]|]; try discriminate.
      injection Hnext as <-. simpl in *. now apply IH.
    + destruct (ws !! i) as [[c u []]|]; try discriminate.
      injection Hnext as <-. simpl in *. now apply IH.
    + destruct m; try discriminate. destruct (decide _); [|discriminate].
      injection Hnext as <-. simpl in *. now apply IH.
Qed.

End PoolMore.

(** X15: [RunConcurrentGet] never sends more results than it has started
    fetches, nor starts more fetches than it was given URLs: the channel of
    capacity [len(urls)] that [ConcurrentHTTPGet] makes is never full when a
    worker sends.  And the counter of the wait group is the number of the
    workers that have not finished: it is never negative. *)
Theorem pool_sends_bounded :
  forall (httpGet : nat -> string -> HTTPConfig -> HTTPResponse)
         (config : HTTPConfig) (urls : list string) (maxConcurrent : Z) (s : Pool),
    reachable httpGet config urls maxConcurrent s ->
    (length (resultChan s) <= length (started s))%nat
    /\ (length (started s) <= length urls)%nat
    /\ (forall i s', next httpGet config (Send i) s = Some s' ->
          (length (resultChan s) < length urls)%nat)
    /\ wg s = Z.of_nat (length (workers s)) /\ 0 <= wg s.
Proof.
  intros httpGet config urls N s Hreach.
  pose proof (WorkerPoolFacts.reachable_inv _ _ _ _ s Hreach)
    as (Hwg & Hcl & Hst & Hrc & Hcz).
  assert (H1 : (length (resultChan s)
                + length (filter (fun w => fetching w = true) (workers s))
                = length (started s))%nat).
  { apply Permutation_length in Hrc.
    now rewrite length_app, !length_fmap in Hrc. }
  assert (H2 : (length (started s) <= length urls)%nat).
  { rewrite <- Hst, length_app, length_fmap. lia. }
  split; [lia|]. split; [exact H2|]. split; [|split; [exact Hwg|lia]].
  intros i s' Hnext. simpl in Hnext.
  destruct (workers s !! i) as [[c u ph]|] eqn:Hw; [|discriminate].
  destruct ph; try discriminate.
  assert (Hin : mkWorker c u Fetching
                ∈ filter (fun w => fetching w = true) (workers s)).
  { apply list_elem_of_filter. split; [reflexivity|].
    eapply list_elem_of_lookup_2. exact Hw. }
  destruct (filter (fun w => fetching w = true) (workers s)) as [|w l];
    [now apply elem_of_nil in Hin|]. simpl in H1. lia.
Qed.

Lemma pool_sends_bounded_witness :
  (length (resultChan twoFetching) <= length (started twoFetching))%nat
  /\ 0 <= wg twoFetching.
Proof.
  destruct (pool_sends_bounded okGet plainHTTP ["a"; "b"; "c"]%string 2
              twoFetching twoFetching_reachable) as (H1 & _ & _ & _ & H5).
  split; [exact H1 | exact H5].
Defined.

(** X16: when the channel is closed, the URLs of the results on it are, up
    to their order, those of a prefix of the input (for an [httpGet] that
    returns the URL it was given, as [HTTPGet] does); and if the signal has
    not fired, of the whole input: without cancellation every URL is fetched
    once. *)
Theorem pool_closed_results :
  forall (httpGet : nat -> string -> HTTPConfig -> HTTPResponse)
         (config : HTTPConfig) (urls : list string) (maxConcurrent : Z) (s : Pool),
    (forall c u, URL (httpGet c u config) = u) ->
    reachable httpGet config urls maxConcurrent s ->
    mainState s = Closed ->
    URL <$> resultChan s ≡ₚ take (length (resultChan s)) urls
    /\ (quitFired s = false ->
        pending s = [] /\ URL <$> resultChan s ≡ₚ urls
        /\ length (resultChan s) = length urls).
Proof.
  intros httpGet config urls N s Hurl Hreach Hm.
  pose proof (WorkerPoolFacts.reachable_inv _ _ _ _ s Hreach)
    as (Hwg & Hcl & Hst & Hrc & Hcz).
  rewrite (Hcz Hm) in Hrc. simpl in Hrc. rewrite app_nil_r in Hrc.
  assert (Hu : URL <$> resultChan s ≡ₚ (started s).*2).
  { rewrite Hrc, <- list_fmap_compose.
    assert (E : (URL ∘ fetched httpGet config) <$> started s = (started s).*2)
      by (apply list_fmap_ext; intros i [c u] _; simpl; apply Hurl).
    now rewrite E. }
  assert (Hlen : length (resultChan s) = length (started s)).
  { apply Permutation_length in Hrc. now rewrite length_fmap in Hrc. }
  split.
  - rewrite Hu, Hlen, <- Hst.
    rewrite <- (length_fmap snd (started s)), take_app_length. reflexivity.
  - intros Hq.
    destruct (loop_exit httpGet config urls N s Hreach) as [Hq'|Hp];
      [rewrite Hm; discriminate | congruence |].
    rewrite Hp, app_nil_r in Hst. split; [exact Hp|].
    split; [now rewrite Hu, Hst|]. now rewrite Hlen, <- Hst, length_fmap.
Qed.

Lemma closedAB_reachable :
  reachable okGet plainHTTP ["a"; "b"]%string 1 closedAB.
Proof.
  eexists _, [Dispatch; Send 0; Return 0; Done 0; Dispatch; LoopEnd; Send 0;
              Return 0; Done 0; Close].
  split; reflexivity.
Qed.

Lemma pool_closed_results_witness :
  URL <$> resultChan closedAB ≡ₚ ["a"; "b"]%string
  /\ length (resultChan closedAB) = 2%nat.
Proof.
  destruct (pool_closed_results okGet plainHTTP ["a"; "b"]%string 1 closedAB
              (fun _ _ => eq_refl) closedAB_reachable eq_refl) as [_ H].
  destruct (H eq_refl) as (_ & H2 & H3). split; [exact H2 | exact H3].
Defined.

(** X17: a negative [maxConcurrent] makes [RunConcurrentGet] panic at the
    [make] of [clientsReady].  With [maxConcurrent = 0] and at least one
    URL, no fetch is ever started and no result is ever sent: until the
    signal fires the loop is blocked in its [select], no transition of the
    program being enabled. *)
Theorem pool_without_clients :
  forall (httpGet : nat -> string -> HTTPConfig -> HTTPResponse)
         (config : HTTPConfig) (urls : list string),
    (forall n, n < 0 -> init urls n = None)
    /\ (urls ≠ [] ->
        forall s, reachable httpGet config urls 0 s ->
          started s = [] /\ resultChan s = [] /\ workers s = []
          /\ pending s = urls
          /\ (quitFired s = false ->
              mainState s = Dispatching
              /\ forall e, isProgram e = true -> next httpGet config e s = None)).
Proof.
  intros httpGet config urls. split.
  - intros n Hn. unfold init. now destruct (decide (n < 0)).
  - intros Hne s Hreach.
    assert (Hready : forall t, reachable httpGet config urls 0 t ->
              clientsReady t = []).
    { intros t Ht.
      pose proof (WorkerPoolFacts.reachable_inv _ _ _ _ t Ht) as (_ & Hcl & _).
      simpl in Hcl. apply Permutation_nil_r in Hcl.
      now apply app_eq_nil in Hcl as [-> _]. }
    assert (Hall : started s = [] /\ resultChan s = [] /\ workers s = []
                   /\ pending s = urls
                   /\ (quitFired s = false -> mainState s = Dispatching)).
    { pattern s. revert s Hreach. apply reachable_induction.
      - intros s0 [= <-]. simpl. done.
      - intros e s s' Hr (Hst & Hrc & Hws & Hp & Hq) Hnext.
        pose proof (Hready s Hr) as Hcr.
        destruct s as [pend ready ws rc st n q m]; simpl in *. subst.
        destruct e; simpl in Hnext.
        + destruct q; [discriminate|]. injection Hnext as <-. simpl. done.
        + destruct m; try discriminate. destruct urls; discriminate.
        + destruct m; try discriminate. destruct urls; [discriminate|].
          destruct q; [|discriminate]. injection Hnext as <-. simpl. done.
        + destruct m; try discriminate. destruct urls; [done|discriminate].
        + discriminate.
        + discriminate.
        + discriminate.
        + destruct m; try discriminate. destruct (decide _); [|discriminate].
          injection Hnext as <-. simpl. split; [done|]. split; [done|].
          split; [done|]. split; [done|]. intros Hq'. specialize (Hq Hq'). done. }
    destruct Hall as (Hst & Hrc & Hws & Hp & Hq).
    split; [exact Hst|]. split; [exact Hrc|]. split; [exact Hws|].
    split; [exact Hp|]. intros Hq'. split; [now apply Hq|].
    pose proof (Hready s Hreach) as Hcr. specialize (Hq Hq').
    destruct s as [pend ready ws rc st n q m]; simpl in *. subst.
    intros e He. destruct e; simpl; try discriminate; try reflexivity.
    + destruct urls; reflexivity.
    + destruct urls; reflexivity.
    + destruct urls; [done|reflexivity].
Qed.

Lemma pool_without_clients_witness :
  next okGet plainHTTP Dispatch (mkPool ["a"] [] [] [] [] 0 false Dispatching) = None
  /\ next okGet plainHTTP LoopEnd (mkPool ["a"] [] [] [] [] 0 false Dispatching) = None.
Proof.
  assert (Hr : reachable okGet plainHTTP ["a"]%string 0
                 (mkPool ["a"] [] [] [] [] 0 false Dispatching))
    by (eexists _, []; split; reflexivity).
  destruct (proj2 (pool_without_clients okGet plainHTTP ["a"]%string)
              ltac:(discriminate) _ Hr) as (_ & _ & _ & _ & H).
  split; apply (proj2 (H eq_refl)); reflexivity.
Defined.

(* ===================================================================== *)
(** ** The statistics of a whole crawl *)

Lemma foldl_max_base (l : list Z) (m : Z) :
  0 <= m -> foldl Z.max m l = Z.max m (foldl Z.max 0 l).
Proof.
  revert m. induction l as [|x l IH]; intros m Hm; simpl; [lia|].
  rewrite (IH (Z.max m x)), (IH (Z.max 0 x)) by lia. lia.
Qed.

Lemma foldl_max_app (l1 l2 : list Z) :
  foldl Z.max 0 (l1 ++ l2) = Z.max (foldl Z.max 0 l1) (foldl Z.max 0 l2).
Proof.
  rewrite foldl_app. apply foldl_max_base.
  destruct (foldl_max_bounds l1 0) as [H _]. exact H.
Qed.

Lemma sumZ_app l1 l2 : sumZ (l1 ++ l2) = sumZ l1 + sumZ l2.
Proof. unfold sumZ. induction l1 as [|x l1 IH]; simpl; lia. Qed.

Lemma sumZ_nonneg l : Forall (fun t => 0 <= t) l -> 0 <= sumZ l.
Proof. unfold sumZ. induction 1; simpl; lia. Qed.

Lemma sumZ_le_max l :
  Forall (fun t => 0 <= t) l ->
  sumZ l <= Z.of_nat (length l) * foldl Z.max 0 l.
Proof.
  induction 1 as [|x l Hx Hl IH]; [simpl; lia|].
  change (sumZ (x :: l)) with (x + sumZ l).
  change (x :: l) with ([x] ++ l). rewrite foldl_max_app, length_app. simpl.
  destruct (foldl_max_bounds l 0) as [H0 _]. nia.
Qed.

Lemma foldl_add_exact l a :
  Forall (fun t => 0 <= t) l -> 0 <= a -> a + sumZ l <= max_int ->
  foldl add a l = a + sumZ l.
Proof.
  intros Hl. revert a. induction Hl as [|x l Hx Hl IH]; intros a Ha Hle; simpl.
  - unfold sumZ. simpl. lia.
  - change (sumZ (x :: l)) with (x + sumZ l) in *.
    pose proof (sumZ_nonneg l Hl).
    rewrite add_exact by (unfold in_range, min_int, max_int in *; lia).
    rewrite IH by lia. lia.
Qed.

Lemma ok200Times_app l1 l2 : ok200Times (l1 ++ l2) = ok200Times l1 ++ ok200Times l2.
Proof. unfold ok200Times. now rewrite list.filter_app, fmap_app. Qed.

Lemma countStatus_app c l1 l2 :
  countStatus c (l1 ++ l2) = countStatus c l1 + countStatus c l2.
Proof. unfold countStatus. rewrite list.filter_app, length_app. lia. Qed.

Lemma countStatus_ok200 rs : countStatus 200 rs = Z.of_nat (length (ok200Times rs)).
Proof. unfold countStatus, ok200Times. now rewrite length_fmap. Qed.

(** What a phase leaves, in terms of the results it received. *)
Lemma phaseAcc_summary {Quit : Type}
    (getter : list string -> HTTPConfig -> Z -> Quit -> list HTTPResponse)
    urls config quit :
  let rs := received Quit getter urls config quit in
  let acc := phaseAcc getter urls config quit in
  Z.of_nat (length rs) < 2 ^ 62 ->
  Forall (fun t => 0 <= t) (ok200Times rs) -> sumZ (ok200Times rs) <= max_int ->
  Total acc.1 = Z.of_nat (length rs)
  /\ (forall c, mget (StatusCodes acc.1) c = countStatus c rs)
  /\ Max200Time acc.1 = foldl Z.max 0 (ok200Times rs)
  /\ acc.2 = sumZ (ok200Times rs)
  /\ Non200Urls acc.1 = reportOf <$> filter (fun r => StatusCode r ≠ 200) rs.
Proof.
  intros rs acc Hlen Hnn Hsum. subst acc. unfold phaseAcc. fold rs.
  destruct (recordAll_inv rs freshAcc statsInv_fresh) as [_ Htot];
    [simpl; unfold max_int; lia|].
  split; [rewrite Htot; simpl; lia|]. split; [|split; [|split]].
  - intros c. rewrite recordAll_histogram;
      [|exact statsInv_fresh|simpl; unfold max_int; lia].
    simpl. rewrite mget_empty. lia.
  - now rewrite recordAll_max.
  - rewrite recordAll_sum. simpl. rewrite foldl_add_exact; [lia|done|lia|lia].
  - now rewrite recordAll_non200.
Qed.

(** X18: the statistics that [AsyncCrawl] returns account for every result
    received in its phases once.  When fewer than [2^62] results are
    received, the latencies of the 200-responses are not negative and their
    sum fits in 64 bits: the total is the number of results; the histogram
    holds the number of results of each status code; the maximum is the
    largest latency of a 200-response; the average is the sum of the
    latencies of the 200-responses divided by their number (zero when there
    is none), and it lies between zero and the maximum. *)
Theorem AsyncCrawl_statistics :
  forall (Quit : Type)
         (getter : list string -> HTTPConfig -> Z -> Quit -> list HTTPResponse)
         (RewriteURLHost : list string -> string -> list string)
         urls config quit log,
    let all := receivedAll getter (effectiveURLs RewriteURLHost urls config)
                 (effectiveConfig config) quit in
    Z.of_nat (length all) < 2 ^ 62 ->
    Forall (fun t => 0 <= t) (ok200Times all) ->
    sumZ (ok200Times all) <= max_int ->
    exists stats err log',
      AsyncCrawl Quit getter RewriteURLHost urls config quit log
      = Some ((stats, err), log')
      /\ Total stats = Z.of_nat (length all)
      /\ (forall c, mget (StatusCodes stats) c = countStatus c all)
      /\ Max200Time stats = foldl Z.max 0 (ok200Times all)
      /\ Average200Time stats =
         (if decide (countStatus 200 all > 0)
          then sumZ (ok200Times all) `quot` countStatus 200 all else 0)
      /\ 0 <= Average200Time stats <= Max200Time stats
      /\ cr_URL <$> Non200Urls stats
         = URL <$> filter (fun r => StatusCode r ≠ 200) all.
Proof.
  intros Quit getter RW urls config quit log all Hlen Hnn Hsum.
  destruct (AsyncCrawl_run getter RW urls config quit log) as (log' & _ & Hrun).
  set (urls' := effectiveURLs RW urls config) in *.
  set (config' := effectiveConfig config) in *.
  set (res := phasesResult getter urls' config' quit) in *.
  assert (Hres : Total res.1 = Z.of_nat (length all)
                 /\ (forall c, mget (StatusCodes res.1) c = countStatus c all)
                 /\ Max200Time res.1 = foldl Z.max 0 (ok200Times all)
                 /\ res.2 = sumZ (ok200Times all)
                 /\ cr_URL <$> Non200Urls res.1
                    = URL <$> filter (fun r => StatusCode r ≠ 200) all).
  { clear Hrun. subst res all. unfold phasesResult, receivedAll in *.
    set (r1 := received Quit getter urls' config' quit) in *.
    destruct (ParseLinks (HTTP config')).
    - set (r2 := received Quit getter (linkedUrlsOf getter urls' config' quit)
                   (linksConfigOf config') quit) in *.
      rewrite length_app in Hlen. rewrite ok200Times_app in Hnn, Hsum.
      apply Forall_app in Hnn as [Hnn1 Hnn2]. rewrite sumZ_app in Hsum.
      pose proof (sumZ_nonneg _ Hnn1). pose proof (sumZ_nonneg _ Hnn2).
      destruct (phaseAcc_summary getter urls' config' quit)
        as (T1 & C1 & M1 & S1 & N1); [fold r1; lia|done|fold r1; lia|].
      destruct (phaseAcc_summary getter (linkedUrlsOf getter urls' config' quit)
                  (linksConfigOf config') quit)
        as (T2 & C2 & M2 & S2 & N2); [fold r2; lia|done|fold r2; lia|].
      fold r1 in T1, C1, M1, S1, N1. fold r2 in T2, C2, M2, S2, N2.
      unfold mergedPhases. fold (linkedUrlsOf getter urls' config' quit). simpl.
      rewrite T1, T2, M1, M2, S1, S2, N1, N2.
      split; [|split; [|split; [|split]]].
      + rewrite add_exact, length_app by (unfold in_range, min_int, max_int; lia).
        lia.
      + intros c. rewrite mget_mergedCodes, C1, C2, countStatus_app.
        pose proof (countStatus_le c r1). pose proof (countStatus_le c r2).
        apply wrap_id. unfold in_range, min_int, max_int. lia.
      + rewrite ok200Times_app, foldl_max_app. destruct (decide _); lia.
      + rewrite ok200Times_app, sumZ_app.
        apply add_exact. unfold in_range, min_int, max_int in *. lia.
      + match goal with
        | |- context [map ?f ?l] => change (map f l) with (f <$> l)
        end.
        rewrite list.filter_app, !fmap_app, <- !list_fmap_compose. reflexivity.
    - rewrite app_nil_r in *.
      destruct (phaseAcc_summary getter urls' config' quit)
        as (T1 & C1 & M1 & S1 & N1); [fold r1; lia|done|fold r1; lia|].
      fold r1 in T1, C1, M1, S1, N1.
      split; [exact T1|]. split; [exact C1|]. split; [exact M1|].
      split; [exact S1|]. rewrite N1, <- list_fmap_compose. reflexivity. }
  destruct Hres as (HT & HC & HM & HS & HN).
  set (final := if decide (mget (StatusCodes res.1) 200 > 0) then _ else _) in Hrun.
  exists final, (classify final), log'. split; [exact Hrun|].
  pose proof (sumZ_nonneg _ Hnn) as Hs0.
  pose proof (sumZ_le_max _ Hnn) as Hsm.
  pose proof (countStatus_ok200 all) as Hc200.
  subst final. rewrite (HC 200), HS.
  destruct (decide (countStatus 200 all > 0)) as [Hpos|Hz]; simpl.
  - assert (Hq : 0 <= sumZ (ok200Times all) `quot` countStatus 200 all
                 <= foldl Z.max 0 (ok200Times all)).
    { split; [apply Z.quot_pos; lia|].
      apply Z.quot_le_upper_bound; [lia|]. rewrite Hc200. lia. }
    pose proof (Z.quot_le_upper_bound (sumZ (ok200Times all))
                  (countStatus 200 all) (sumZ (ok200Times all))) as Hub.
    rewrite wrap_id
      by (unfold in_range, min_int, max_int in *; split; [lia|];
          transitivity (sumZ (ok200Times all)); [apply Hub; nia|lia]).
    split; [exact HT|]. split; [exact HC|]. split; [exact HM|].
    split; [reflexivity|]. split; [rewrite HM; exact Hq|exact HN].
  - pose proof (phasesResult_average getter urls' config' quit) as Havg.
    fold res in Havg.
    split; [exact HT|]. split; [exact HC|]. split; [exact HM|].
    split; [exact Havg|]. split; [|exact HN]. rewrite Havg, HM.
    destruct (foldl_max_bounds (ok200Times all) 0) as [H0 _]. lia.
Qed.

Lemma AsyncCrawl_statistics_witness :
  exists stats err log',
    AsyncCrawl unit linkingGetter idRewrite ["a"; "b"]%string zeroThrottleConfig tt []
    = Some ((stats, err), log')
    /\ Total stats = 3 /\ Average200Time stats = 10.
Proof.
  destruct (AsyncCrawl_statistics unit linkingGetter idRewrite ["a"; "b"]%string
              zeroThrottleConfig tt [])
    as (stats & err & log' & Hrun & HT & _ & _ & HA & _).
  - vm_compute. reflexivity.
  - vm_compute. compute_done.
  - vm_compute. discriminate.
  - exists stats, err, log'. split; [exact Hrun|]. split; [exact HT|].
    rewrite HA. reflexivity.
Defined.

(* ===================================================================== *)
(** ** The batches of the earlier crawler *)

(** X19: in the loop of [util.AsyncCrawl], the batch of iteration [i] starts
    at [i * throttle]; it ends at [low + throttle] or at the end of the URLs,
    whichever comes first, except when [low + throttle] is [numUrls + 1]:
    the test [high > numUrls] then lets [high = numUrls] through, and the
    upper bound of the slice is one more than the number of URLs. *)
Theorem batch_bounds :
  forall numUrls throttle i,
    0 < throttle -> 0 <= i -> i * throttle < numUrls ->
    numUrls + throttle <= max_int ->
    let low := (Batch.bounds numUrls throttle i).1 in
    let upper := (Batch.bounds numUrls throttle i).2 in
    low = i * throttle
    /\ (low + throttle ≠ numUrls + 1 -> upper = Z.min (low + throttle) numUrls)
    /\ (low + throttle = numUrls + 1 -> upper = numUrls + 1)
    /\ low < upper.
Proof.
  intros numUrls throttle i Ht Hi Hlow Hmax low upper. subst low upper.
  unfold Batch.bounds. simpl.
  assert (Hil : 0 <= i * throttle) by nia.
  unfold mul. rewrite (wrap_id (i * throttle))
    by (unfold in_range, min_int, max_int in *; lia).
  rewrite (add_exact (i * throttle) throttle)
    by (unfold in_range, min_int, max_int in *; lia).
  rewrite (add_exact (i * throttle + throttle) (-1))
    by (unfold in_range, min_int, max_int in *; lia).
  rewrite (add_exact numUrls (-1))
    by (unfold in_range, min_int, max_int in *; lia).
  split; [reflexivity|].
  destruct (decide (i * throttle + throttle + -1 > numUrls)); simpl;
    rewrite add_exact by (unfold in_range, min_int, max_int in *; lia); lia.
Qed.

Lemma batch_bounds_witness :
  (Batch.bounds 3 2 1).1 = 2 /\ (Batch.bounds 3 2 1).2 = 4.
Proof.
  destruct (batch_bounds 3 2 1 ltac:(lia) ltac:(lia) ltac:(lia)
              ltac:(unfold max_int; lia)) as (H1 & _ & H3 & _).
  split; [exact H1 | exact (H3 eq_refl)].
Defined.

(* ===================================================================== *)
(** ** The pool does not get stuck *)


